(** * benchmark-pages.py: history merging, retention and artifact assembly

    A shallow embedding of [benchmarking/scripts/benchmark-pages.py] and the
    properties its specification states about it.  The script is a sequence of
    filesystem operations, so the embedding is a program in a small
    state-and-exception monad over a model of the filesystem. *)

From Stdlib Require Import ZArith String Ascii.
From stdpp Require Import gmap strings list fin_maps sorting pretty.

Local Open Scope string_scope.
Local Open Scope list_scope.

(** ** Python built-ins used by the script *)

Module Py.

(** [s.endswith(suffix)]; the pattern [*.json] of [Path.glob] matches a name
    exactly when the name ends with [.json] (pathlib does not treat a leading
    dot specially, and matching is case sensitive on POSIX). *)
Definition endswith (suffix s : string) : bool :=
  let n := String.length s in
  let k := String.length suffix in
  (k <=? n)%nat && String.eqb (String.substring (n - k) k s) suffix.

(** [l[start:]] for a Python [int] start: a negative start counts from the end,
    and both ends are clamped to the list. *)
Definition slice_from {A} (start : Z) (l : list A) : list A :=
  let len := Z.of_nat (length l) in
  let i := if (start <? 0)%Z then Z.max 0 (start + len) else Z.min start len in
  drop (Z.to_nat i) l.

(** The order of [str]: lexicographic on the characters. *)
Definition str_le (a b : string) : Prop := String.leb a b = true.
Definition str_lt (a b : string) : Prop := String.ltb a b = true.

#[global] Instance str_le_dec a b : Decision (str_le a b).
Proof. unfold str_le. apply _. Defined.

(** [sorted(l)] and [sorted(l, reverse=True)].  CPython sorts in reverse by
    reversing the list, sorting it ascending and reversing the result. *)
Definition sorted (l : list string) : list string := merge_sort str_le l.
Definition sorted_reverse (l : list string) : list string :=
  reverse (sorted (reverse l)).

(** [sub in s] for two strings. *)
Fixpoint contains (sub s : string) : bool :=
  String.prefix sub s ||
  match s with
  | EmptyString => false
  | String _ s' => contains sub s'
  end.

End Py.

(** ** Paths

    A path is the list of its components, as [PurePath.parts] has them: the
    components between slashes, without the empty ones and without [.], and
    with the root as first component when the string starts with a slash.
    [..] and symbolic links are not resolved (pathlib does not resolve them
    either; the model has no links). *)

Abbreviation path := (list string).

Fixpoint split_slash (s cur : string) : list string :=
  match s with
  | EmptyString => [cur]
  | String c s' =>
      if Ascii.eqb c "/" then cur :: split_slash s' EmptyString
      else split_slash s' (cur +:+ String c EmptyString)
  end.

Definition is_component (c : string) : bool :=
  negb (String.eqb c EmptyString) && negb (String.eqb c ".").

(** [posixpath.splitroot]: the root of a path string.  POSIX sets exactly two
    leading slashes apart, so they are kept as the root [//]; one slash, or
    three and more, are the root [/]. *)
Definition splitroot (s : string) : option string :=
  if String.prefix "///" s then Some "/"
  else if String.prefix "//" s then Some "//"
  else if String.prefix "/" s then Some "/"
  else None.

Definition is_root (c : string) : bool := String.eqb c "/" || String.eqb c "//".

(** [Path(s)]. *)
Definition Path (s : string) : path :=
  let comps := filter (λ c, is_component c = true) (split_slash s EmptyString) in
  match splitroot s with
  | Some root => root :: comps
  | None => comps
  end.

(** [str(p)]. *)
Definition show_path (p : path) : string :=
  match p with
  | [] => "."
  | c :: rest =>
      if is_root c then c +:+ String.concat "/" rest else String.concat "/" p
  end.

(** [p / name] for a single-component relative [name]. *)
Definition child (p : path) (name : string) : path := p ++ [name].

(** ** The filesystem

    The filesystem maps each path that exists to a regular file with its
    content or to a directory.  The empty path is the working directory. *)

Inductive entry :=
  | File (content : string)
  | Dir.

#[global] Instance entry_eq_dec : EqDecision entry.
Proof. solve_decision. Defined.

Abbreviation fs := (gmap (list string) entry).

Definition stat (s : fs) (p : path) : option entry :=
  match p with
  | [] => Some Dir
  | _ => s !! p
  end.

Definition is_dir (s : fs) (p : path) : bool := bool_decide (stat s p = Some Dir).
Definition is_file (s : fs) (p : path) : bool :=
  match stat s p with Some (File _) => true | _ => false end.
Definition exists_ (s : fs) (p : path) : bool :=
  match stat s p with Some _ => true | None => false end.

(** The name of [k] when [k] is directly inside [d]. *)
Definition child_name (d k : path) : option string :=
  match drop (length d) k with
  | [n] => if decide (take (length d) k = d) then Some n else None
  | _ => None
  end.

(** [os.scandir(d)]: the names of the entries of [d], in the order the map
    enumerates them (the operating system promises no order). *)
Definition listdir (s : fs) (d : path) : list string :=
  omap (λ kv, child_name d kv.1) (map_to_list s).

(** ** Processes: state, output and abnormal termination *)

Inductive exn :=
  | FileExistsError
  | FileNotFoundError
  | NotADirectoryError
  | IsADirectoryError
  | SameFileError
  | RecursionError.

Inductive event :=
  | Stdout (line : string)
  | Stderr (line : string).

Record world := World { files : fs; log : list event }.

Inductive outcome (A : Type) :=
  | Return (a : A)
  | Raise (e : exn)
  | SysExit (code : Z).
Arguments Return {A} a.
Arguments Raise {A} e.
Arguments SysExit {A} code.

Definition M (A : Type) : Type := world → outcome A * world.

Definition ret {A} (a : A) : M A := λ w, (Return a, w).
Definition raise {A} (e : exn) : M A := λ w, (Raise e, w).
Definition sys_exit {A} (code : Z) : M A := λ w, (SysExit code, w).

Definition bind {A B} (m : M A) (k : A → M B) : M B := λ w,
  match m w with
  | (Return a, w') => k a w'
  | (Raise e, w') => (Raise e, w')
  | (SysExit c, w') => (SysExit c, w')
  end.

Notation "'do' x <- m ; k" := (bind m (λ x, k))
  (at level 10, x name, m at level 100, k at level 200).
Notation "m ;; k" := (bind m (λ _, k))
  (at level 100, k at level 200, right associativity).

Definition get_fs : M fs := λ w, (Return (files w), w).
Definition put_fs (s : fs) : M unit := λ w, (Return tt, World s (log w)).
Definition print (line : string) : M unit := λ w,
  (Return tt, World (files w) (log w ++ [Stdout line])).
Definition print_err (line : string) : M unit := λ w,
  (Return tt, World (files w) (log w ++ [Stderr line])).

(** [for x in l: body(acc, x)] with a local variable [acc] updated in the loop. *)
Fixpoint for_fold {A B} (body : B → A → M B) (acc : B) (l : list A) : M B :=
  match l with
  | [] => ret acc
  | x :: l' => do acc' <- body acc x; for_fold body acc' l'
  end.

Definition for_each {A} (body : A → M unit) (l : list A) : M unit :=
  for_fold (λ _ x, body x) tt l.

(** ** Filesystem primitives of [pathlib], [os] and [shutil] *)

Definition parent (p : path) : path := removelast p.
Definition basename (p : path) : string := default EmptyString (last p).

(** Creating the missing directories along [rest] below [base]; a regular file
    on the way is an error. *)
Fixpoint makedirs_from (base : path) (rest : list string) (s : fs) : exn + fs :=
  match rest with
  | [] => inr s
  | n :: rest' =>
      let p := child base n in
      match s !! p with
      | Some Dir => makedirs_from p rest' s
      | Some (File _) =>
          inl (match rest' with [] => FileExistsError | _ => NotADirectoryError end)
      | None => makedirs_from p rest' (<[p := Dir]> s)
      end
  end.

(** [p.mkdir(parents=True, exist_ok=True)], also [os.makedirs(p, exist_ok=True)]. *)
Definition makedirs (p : path) : M unit := λ w,
  match makedirs_from [] p (files w) with
  | inl e => (Raise e, w)
  | inr s => (Return tt, World s (log w))
  end.

(** [p.mkdir(exist_ok=True)]: the parent has to be there. *)
Definition mkdir_exist_ok (p : path) : M unit := λ w,
  match stat (files w) p with
  | Some Dir => (Return tt, w)
  | Some (File _) => (Raise FileExistsError, w)
  | None =>
      match stat (files w) (parent p) with
      | Some Dir => (Return tt, World (<[p := Dir]> (files w)) (log w))
      | Some (File _) => (Raise NotADirectoryError, w)
      | None => (Raise FileNotFoundError, w)
      end
  end.

(** Opening [p] for writing and writing [c]: [p] is created or truncated. *)
Definition write_file (p : path) (c : string) : M unit := λ w,
  match stat (files w) p with
  | Some Dir => (Raise IsADirectoryError, w)
  | _ =>
      match stat (files w) (parent p) with
      | Some Dir => (Return tt, World (<[p := File c]> (files w)) (log w))
      | Some (File _) => (Raise NotADirectoryError, w)
      | None => (Raise FileNotFoundError, w)
      end
  end.

(** [shutil.copy2(src, dst)]: when [dst] is a directory the file goes inside
    it under the name of [src]; copying a file onto itself is an error.
    Timestamps are not part of the model. *)
Definition copy2 (src dst : path) : M unit := λ w,
  let s := files w in
  let target := if is_dir s dst then child dst (basename src) else dst in
  if exists_ s src && bool_decide (src = target) then (Raise SameFileError, w)
  else
    match stat s src with
    | None => (Raise FileNotFoundError, w)
    | Some Dir => (Raise IsADirectoryError, w)
    | Some (File c) => write_file target c w
    end.

(** [p.unlink()]. *)
Definition unlink (p : path) : M unit := λ w,
  match stat (files w) p with
  | Some (File _) => (Return tt, World (delete p (files w)) (log w))
  | Some Dir => (Raise IsADirectoryError, w)
  | None => (Raise FileNotFoundError, w)
  end.

(** [d.glob("*.json")], as the names of the matching entries of [d] (files and
    directories alike); nothing when [d] is not a directory. *)
Definition glob_json_in (s : fs) (d : path) : list string :=
  if is_dir s d then filter (λ n, Py.endswith ".json" n = true) (listdir s d) else [].

Definition glob_json (d : path) : M (list string) := λ w,
  (Return (glob_json_in (files w) d), w).

Definition path_is_dir (p : path) : M bool := λ w, (Return (is_dir (files w) p), w).
Definition path_is_file (p : path) : M bool := λ w, (Return (is_file (files w) p), w).
Definition path_exists (p : path) : M bool := λ w, (Return (exists_ (files w) p), w).

(** ** The two primitives of the script *)

(** [_copy_json_files(src_dir, dst_dir, skip_existing=...)]. *)
Definition _copy_json_files (src_dir dst_dir : path) (skip_existing : bool) : M nat :=
  makedirs dst_dir ;;
  do names <- glob_json src_dir;
  for_fold (λ copied name,
    let dst := child dst_dir name in
    do there <- path_exists dst;
    if skip_existing && there then ret copied
    else copy2 (child src_dir name) dst ;; ret (S copied)) 0 names.

(** [_enforce_retention(history_dir, max_files)].  The paths that are sorted
    all lie in [history_dir], so they compare as their names do. *)
Definition _enforce_retention (history_dir : path) (max_files : Z) : M nat :=
  do d <- path_is_dir history_dir;
  if negb d then ret 0
  else
    do names <- glob_json history_dir;
    let files := Py.sorted_reverse names in
    for_fold (λ removed name,
      unlink (child history_dir name) ;; ret (S removed)) 0
      (Py.slice_from max_files files).

(** ** More of [pathlib] and [shutil], for the two commands *)

(** [os.scandir(d)] and [d.iterdir()]. *)
Definition scandir (d : path) : M (list string) := λ w,
  match stat (files w) d with
  | Some Dir => (Return (listdir (files w) d), w)
  | Some (File _) => (Raise NotADirectoryError, w)
  | None => (Raise FileNotFoundError, w)
  end.

(** [shutil.copytree(src, dst, dirs_exist_ok=True)]: the entries of [src] are
    listed, [dst] is created, and each entry is copied, a directory by a
    recursive call and anything else by [copy2].  The recursion is Python's,
    so its depth is bounded by the interpreter's limit, here [fuel].  shutil
    collects the errors of the entries and raises them together at the end;
    the model stops at the first one, so after a failure the two agree on the
    outcome and not on how much was copied. *)
Fixpoint copytree (fuel : nat) (src dst : path) : M unit :=
  match fuel with
  | O => raise RecursionError
  | S fuel' =>
      do names <- scandir src;
      makedirs dst ;;
      for_each (λ n,
        do d <- path_is_dir (child src n);
        if d then copytree fuel' (child src n) (child dst n)
        else copy2 (child src n) (child dst n)) names
  end.

(** ** Constants of the script *)

Definition _BADGE_MAPPING : list (string * list (string * string)) :=
  [ ("micro",
      [ ("performance-badge.json", "performance-badge.json");
        ("trend-badge.json", "trend-badge.json");
        ("last-run-badge.json", "last-run-badge.json") ]);
    ("integration",
      [ ("integration-performance-badge.json", "integration-performance-badge.json");
        ("integration-trend-badge.json", "integration-trend-badge.json");
        ("last-run-badge.json", "integration-last-run-badge.json") ]) ].

Definition _BENCHMARK_TYPES : list string := ["micro"; "integration"].
Definition _DEFAULT_MAX_HISTORY : Z := 10.

(** [d[key]] for a dict written as the list of its items. *)
Fixpoint dict_get {V} (key : string) (d : list (string * V)) : option V :=
  match d with
  | [] => None
  | (k, v) :: d' => if String.eqb k key then Some v else dict_get key d'
  end.

(** The truth value of an optional command line string: [None] and the empty
    string are false. *)
Definition truthy (o : option string) : bool :=
  match o with
  | Some s => negb (String.eqb s EmptyString)
  | None => false
  end.

Definition newline : string := String (ascii_of_nat 10) EmptyString.

(** ** prepare-history *)

Module Prepare.
Record Namespace := {
  previous_pages_dir : string;
  output_dir : string
}.
End Prepare.

Definition no_previous_message (previous_dir : path) : string :=
  "No previous pages directory found at " +:+ show_path previous_dir
    +:+ ", skipping history preparation".

Definition prepare_history (args : Prepare.Namespace) : M unit :=
  let previous_dir := Path (Prepare.previous_pages_dir args) in
  let output_dir := Path (Prepare.output_dir args) in
  do d <- path_is_dir previous_dir;
  if negb d then print (no_previous_message previous_dir)
  else
    for_each (λ benchmark_type,
      let history_src := child (child previous_dir benchmark_type) "history" in
      do hd <- path_is_dir history_src;
      if negb hd then ret tt
      else
        do count <- _copy_json_files history_src (child output_dir benchmark_type) false;
        print ("Prepared " +:+ pretty count +:+ " " +:+ benchmark_type
                 +:+ " history files")) _BENCHMARK_TYPES.

(** ** assemble *)

Module Assemble.
Record Namespace := {
  micro_results : option string;
  integration_results : option string;
  previous_pages_dir : option string;
  output_dir : string;
  commit_sha : string;
  max_history : Z
}.
End Assemble.

Definition usage_error : string :=
  "Error: at least one of --micro-results or --integration-results is required".

Definition not_found_warning (name : string) (results_dir : path) : string :=
  "Warning: " +:+ name +:+ " results not found at " +:+ show_path results_dir
    +:+ ", skipping".

(** The list [modules] that [assemble] collects. *)
Definition modules_of (args : Assemble.Namespace) : list (string * path) :=
  (if truthy (Assemble.micro_results args)
   then [("micro", Path (default EmptyString (Assemble.micro_results args)))]
   else [])
  ++
  (if truthy (Assemble.integration_results args)
   then [("integration", Path (default EmptyString (Assemble.integration_results args)))]
   else []).

Definition previous_dir_of (args : Assemble.Namespace) : option path :=
  if truthy (Assemble.previous_pages_dir args)
  then Some (Path (default EmptyString (Assemble.previous_pages_dir args)))
  else None.

(** Step 1 of [assemble]. *)
Definition merge_previous (previous_dir : option path) (modules : list (string * path))
    : M unit :=
  match previous_dir with
  | None => ret tt
  | Some previous_dir =>
      do d <- path_is_dir previous_dir;
      if negb d then ret tt
      else
        for_each (λ m,
          let name := m.1 in
          let results_dir := m.2 in
          let prev_history := child (child previous_dir name) "history" in
          do hd <- path_is_dir prev_history;
          if negb hd then ret tt
          else
            let history_dir := child results_dir "history" in
            do count <- _copy_json_files prev_history history_dir true;
            print ("Merged " +:+ pretty count +:+ " previous " +:+ name
                     +:+ " history files")) modules
  end.

(** Step 2 of [assemble]. *)
Definition retain (max_history : Z) (modules : list (string * path)) : M unit :=
  for_each (λ m,
    let name := m.1 in
    let results_dir := m.2 in
    do removed <- _enforce_retention (child results_dir "history") max_history;
    if bool_decide (removed = 0) then ret tt
    else print ("Removed " +:+ pretty removed +:+ " old " +:+ name
                  +:+ " history files (retention: " +:+ pretty max_history +:+ ")"))
    modules.

(** The badge promotion of one module in step 3. *)
Definition promote_badges (name : string) (results_dir badges_dir : path) : M unit :=
  let module_badges := child results_dir "badges" in
  do bd <- path_is_dir module_badges;
  match (if bd then dict_get name _BADGE_MAPPING else None) with
  | None => ret tt
  | Some mapping =>
      for_each (λ sd,
        let src := child module_badges sd.1 in
        do f <- path_is_file src;
        if f then copy2 src (child badges_dir sd.2) else ret tt) mapping
  end.

Section Assemble.

(** What the script takes from its environment: the encoding of a string by
    [json.dumps] (with the quotes around it), and the recursion limit. *)
Variable json_str : string → string.
Variable recursion_limit : nat.

(** [json.dumps({"timestamp": ..., "commit": ...}, indent=2)]. *)
Definition json_dumps_metadata (timestamp commit : string) : string :=
  "{" +:+ newline
  +:+ "  " +:+ json_str "timestamp" +:+ ": " +:+ json_str timestamp +:+ "," +:+ newline
  +:+ "  " +:+ json_str "commit" +:+ ": " +:+ json_str commit +:+ newline
  +:+ "}".

(** Step 3 of [assemble]. *)
Definition combine (output_dir : path) (modules : list (string * path)) : M unit :=
  makedirs output_dir ;;
  let badges_dir := child output_dir "badges" in
  mkdir_exist_ok badges_dir ;;
  for_each (λ m,
    let name := m.1 in
    let results_dir := m.2 in
    do d <- path_is_dir results_dir;
    if negb d then print (not_found_warning name results_dir)
    else
      copytree recursion_limit results_dir (child output_dir name) ;;
      print ("Copied " +:+ name +:+ " benchmark artifacts to "
               +:+ show_path (child output_dir name)) ;;
      promote_badges name results_dir badges_dir) modules.

(** Step 4 of [assemble]. *)
Definition write_metadata (output_dir : path) (timestamp commit : string) : M unit :=
  write_file (child output_dir "metadata.json")
    (json_dumps_metadata timestamp commit +:+ newline).

(** The summary printed at the end. *)
Definition print_summary (output_dir : path) : M unit :=
  print (newline +:+ "Assembled deployment artifacts in " +:+ show_path output_dir +:+ "/") ;;
  do entries <- scandir output_dir;
  for_each (λ name,
    do d <- path_is_dir (child output_dir name);
    print (if d then "  " +:+ name +:+ "/ " else "  " +:+ name)) (Py.sorted entries).

(** [assemble(args)]; [timestamp] is the clock reading [now], formatted. *)
Definition assemble (timestamp : string) (args : Assemble.Namespace) : M unit :=
  let output_dir := Path (Assemble.output_dir args) in
  let previous_dir := previous_dir_of args in
  let commit_sha := Assemble.commit_sha args in
  let max_history := Assemble.max_history args in
  let modules := modules_of args in
  (match modules with
   | [] => print_err usage_error ;; sys_exit 1
   | _ => ret tt
   end) ;;
  merge_previous previous_dir modules ;;
  retain max_history modules ;;
  combine output_dir modules ;;
  write_metadata output_dir timestamp commit_sha ;;
  print_summary output_dir.

End Assemble.

(** ** Notions used in the statements *)

(** From [s] to [s'] entries were only created or rewritten, at paths in [P],
    and no directory was replaced. *)
Definition writes_within (P : path → Prop) (s s' : fs) : Prop :=
  ∀ p, s' !! p = s !! p ∨ (P p ∧ s !! p ≠ Some Dir ∧ is_Some (s' !! p)).

(** Neither path is the other one or inside it. *)
Definition apart (p q : path) : Prop := ¬ p `prefix_of` q ∧ ¬ q `prefix_of` p.

(** At [p] or above it, or below it. *)
Definition around (p : path) (q : path) : Prop := q `prefix_of` p ∨ p `prefix_of` q.

(** From [s] to [s'] nothing changed outside the paths in [Q]. *)
Definition changes_within (Q : path → Prop) (s s' : fs) : Prop :=
  ∀ p, s' !! p = s !! p ∨ Q p.

(** From [s] to [s'] regular files were removed, at paths in [Q], and nothing
    else changed. *)
Definition deletes_within (Q : path → Prop) (s s' : fs) : Prop :=
  ∀ p, s' !! p = s !! p ∨ (Q p ∧ s' !! p = None ∧ ∃ c, s !! p = Some (File c)).

(** The outcome of the program and the filesystem it leaves do not depend on
    what was printed before. *)
Definition log_blind {A} (m : M A) : Prop :=
  ∀ s lg lg',
    (m (World s lg)).1 = (m (World s lg')).1 ∧
    files (m (World s lg)).2 = files (m (World s lg')).2.

(** The arguments of assemble with an option left out. *)
Definition without_previous (args : Assemble.Namespace) : Assemble.Namespace :=
  {| Assemble.micro_results := Assemble.micro_results args;
     Assemble.integration_results := Assemble.integration_results args;
     Assemble.previous_pages_dir := None;
     Assemble.output_dir := Assemble.output_dir args;
     Assemble.commit_sha := Assemble.commit_sha args;
     Assemble.max_history := Assemble.max_history args |}.

Definition without_micro (args : Assemble.Namespace) : Assemble.Namespace :=
  {| Assemble.micro_results := None;
     Assemble.integration_results := Assemble.integration_results args;
     Assemble.previous_pages_dir := Assemble.previous_pages_dir args;
     Assemble.output_dir := Assemble.output_dir args;
     Assemble.commit_sha := Assemble.commit_sha args;
     Assemble.max_history := Assemble.max_history args |}.

Definition without_integration (args : Assemble.Namespace) : Assemble.Namespace :=
  {| Assemble.micro_results := Assemble.micro_results args;
     Assemble.integration_results := None;
     Assemble.previous_pages_dir := Assemble.previous_pages_dir args;
     Assemble.output_dir := Assemble.output_dir args;
     Assemble.commit_sha := Assemble.commit_sha args;
     Assemble.max_history := Assemble.max_history args |}.

(** The program never ends the process through [sys.exit]. *)
Definition never_exits {A} (m : M A) : Prop := ∀ w c w', m w ≠ (SysExit c, w').

(** The program returns from every world. *)
Definition always_returns {A} (m : M A) : Prop := ∀ w, ∃ a w', m w = (Return a, w').

(** ** Example filesystems *)

(** A history directory with three JSON files and a text file. *)
Definition fs_history : fs :=
  list_to_map
    [ (["h"], Dir);
      (["h"; "2024-01-01.json"], File "one");
      (["h"; "2024-01-03.json"], File "three");
      (["h"; "2024-01-02.json"], File "two");
      (["h"; "notes.txt"], File "notes") ].

(** A source directory with two JSON files and a text file, and a destination
    that already holds a file named as one of them. *)
Definition fs_copy : fs :=
  list_to_map
    [ (["s"], Dir);
      (["s"; "a.json"], File "new-a");
      (["s"; "b.json"], File "new-b");
      (["s"; "readme.txt"], File "text");
      (["d"], Dir);
      (["d"; "a.json"], File "old-a") ].

(** A regular file where a destination directory is asked for. *)
Definition fs_blocked : fs := list_to_map [ (["f"], File "data") ].

(** The arguments of prepare-history as the workflow passes them. *)
Definition prepare_args_ci : Prepare.Namespace :=
  {| Prepare.previous_pages_dir := "previous-pages/OAuth-Sheriff/benchmarks";
     Prepare.output_dir := "benchmark-history" |}.

(** prepare-history given a snapshot path with a slash at its end. *)
Definition prepare_args_trailing_slash : Prepare.Namespace :=
  {| Prepare.previous_pages_dir := "prev/";
     Prepare.output_dir := "benchmark-history" |}.

(** A previous-pages snapshot [p] with micro history, and a results directory
    [r] whose history holds the current run and one entry of the same name as
    a previous one. *)
Definition fs_merge : fs :=
  list_to_map
    [ (["p"], Dir); (["p"; "micro"], Dir); (["p"; "micro"; "history"], Dir);
      (["p"; "micro"; "history"; "2024-01-01.json"], File "old-1");
      (["p"; "micro"; "history"; "2024-01-02.json"], File "old-2");
      (["r"], Dir); (["r"; "history"], Dir);
      (["r"; "history"; "2024-01-02.json"], File "current-2");
      (["r"; "history"; "2024-01-03.json"], File "current-3") ].

(** Arguments of assemble: both categories as the workflow passes them, and
    one with [--micro-results] given as the empty string. *)
Definition assemble_args_ci : Assemble.Namespace :=
  {| Assemble.micro_results := Some "micro/gh-pages-ready";
     Assemble.integration_results := Some "integration/gh-pages-ready";
     Assemble.previous_pages_dir := Some "previous-pages/OAuth-Sheriff/benchmarks";
     Assemble.output_dir := "gh-pages";
     Assemble.commit_sha := "0123abc";
     Assemble.max_history := _DEFAULT_MAX_HISTORY |}.

(** A previous-pages snapshot with micro history, and no results directory. *)
Definition fs_previous_only : fs :=
  list_to_map
    [ (["prev"], Dir); (["prev"; "micro"], Dir); (["prev"; "micro"; "history"], Dir);
      (["prev"; "micro"; "history"; "2024-01-01.json"], File "old-1") ].

Definition assemble_args_previous_only : Assemble.Namespace :=
  {| Assemble.micro_results := Some "results";
     Assemble.integration_results := None;
     Assemble.previous_pages_dir := Some "prev";
     Assemble.output_dir := "out";
     Assemble.commit_sha := "0123abc";
     Assemble.max_history := _DEFAULT_MAX_HISTORY |}.

Definition assemble_args_empty_micro : Assemble.Namespace :=
  {| Assemble.micro_results := Some EmptyString;
     Assemble.integration_results := None;
     Assemble.previous_pages_dir := None;
     Assemble.output_dir := "gh-pages";
     Assemble.commit_sha := "0123abc";
     Assemble.max_history := _DEFAULT_MAX_HISTORY |}.

(** A previous-pages snapshot, where the workflow fetches it, with history of
    both benchmark types. *)
Definition fs_snapshot : fs :=
  let prev := ["previous-pages"; "OAuth-Sheriff"; "benchmarks"] in
  list_to_map
    [ (["previous-pages"], Dir); (["previous-pages"; "OAuth-Sheriff"], Dir);
      (prev, Dir);
      (prev ++ ["micro"], Dir); (prev ++ ["micro"; "history"], Dir);
      (prev ++ ["micro"; "history"; "2024-01-01.json"], File "old-1");
      (prev ++ ["integration"], Dir); (prev ++ ["integration"; "history"], Dir);
      (prev ++ ["integration"; "history"; "2024-01-02.json"], File "old-2") ].

(** A snapshot [p] with history of both categories, micro results in [rm]
    and no integration results yet. *)
Definition fs_merge_both : fs :=
  list_to_map
    [ (["p"], Dir); (["p"; "micro"], Dir); (["p"; "micro"; "history"], Dir);
      (["p"; "micro"; "history"; "2024-01-01.json"], File "micro-1");
      (["p"; "integration"], Dir); (["p"; "integration"; "history"], Dir);
      (["p"; "integration"; "history"; "2024-01-02.json"], File "integration-2");
      (["rm"], Dir); (["rm"; "history"], Dir);
      (["rm"; "history"; "2024-01-03.json"], File "micro-3") ].

Definition assemble_args_both : Assemble.Namespace :=
  {| Assemble.micro_results := Some "rm";
     Assemble.integration_results := Some "ri";
     Assemble.previous_pages_dir := Some "p";
     Assemble.output_dir := "out";
     Assemble.commit_sha := "0123abc";
     Assemble.max_history := _DEFAULT_MAX_HISTORY |}.

(** The same snapshot, with the integration results directory given as
    [p/micro], inside the snapshot: its history directory is the previous
    micro history. *)
Definition fs_aliased : fs :=
  list_to_map
    [ (["p"], Dir); (["p"; "micro"], Dir); (["p"; "micro"; "history"], Dir);
      (["p"; "micro"; "history"; "a.json"], File "micro-a");
      (["p"; "integration"], Dir); (["p"; "integration"; "history"], Dir);
      (["p"; "integration"; "history"; "b.json"], File "integration-b");
      (["r"], Dir) ].

Definition assemble_args_aliased : Assemble.Namespace :=
  {| Assemble.micro_results := Some "r";
     Assemble.integration_results := Some "p/micro";
     Assemble.previous_pages_dir := Some "p";
     Assemble.output_dir := "out";
     Assemble.commit_sha := "0123abc";
     Assemble.max_history := _DEFAULT_MAX_HISTORY |}.

(** * Properties *)

(** ** The order of strings *)

Lemma ascii_compare_eq a b : Ascii.compare a b = Eq → a = b.
Proof. apply Ascii.compare_eq_iff. Qed.

Lemma ascii_compare_refl a : Ascii.compare a a = Eq.
Proof. unfold Ascii.compare. apply N.compare_refl. Qed.

Lemma string_compare_refl a : String.compare a a = Eq.
Proof. induction a as [|c a IH]; simpl; [done|]. by rewrite ascii_compare_refl. Qed.

Lemma string_compare_not_gt_trans a b c :
  String.compare a b ≠ Gt → String.compare b c ≠ Gt → String.compare a c ≠ Gt.
Proof.
  revert b c. induction a as [|x a IH]; intros [|y b] [|z c]; simpl; try done.
  unfold Ascii.compare.
  destruct (N.compare_spec (N_of_ascii x) (N_of_ascii y)) as [Hxy|Hxy|Hxy];
    destruct (N.compare_spec (N_of_ascii y) (N_of_ascii z)) as [Hyz|Hyz|Hyz];
    destruct (N.compare_spec (N_of_ascii x) (N_of_ascii z)) as [Hxz|Hxz|Hxz];
    try done; try lia; eauto.
Qed.

#[global] Instance str_le_trans : Transitive Py.str_le.
Proof.
  intros a b c. unfold Py.str_le, String.leb. intros Hab Hbc.
  pose proof (string_compare_not_gt_trans a b c) as H.
  destruct (String.compare a b), (String.compare b c), (String.compare a c);
    try done; exfalso; by apply H.
Qed.

#[global] Instance str_le_total : Total Py.str_le.
Proof. intros a b. apply String.leb_total. Qed.

#[global] Instance str_le_antisymm : AntiSymm (=) Py.str_le.
Proof. intros a b Hab Hba. by apply String.leb_antisym. Qed.

Lemma str_le_neq_lt a b : Py.str_le a b → a ≠ b → Py.str_lt a b.
Proof.
  unfold Py.str_le, Py.str_lt, String.leb, String.ltb. intros Hle Hne.
  destruct (String.compare a b) eqn:E; try done.
  by apply String.compare_eq_iff in E.
Qed.

Lemma str_lt_irrefl a : ¬ Py.str_lt a a.
Proof. unfold Py.str_lt, String.ltb. by rewrite string_compare_refl. Qed.

(** ** Sorting and slicing *)

Lemma sorted_reverse_Permutation l : Py.sorted_reverse l ≡ₚ l.
Proof.
  unfold Py.sorted_reverse, Py.sorted.
  by rewrite reverse_Permutation, merge_sort_Permutation, reverse_Permutation.
Qed.

(** A list sorted in reverse is descending: each element is at least every
    later one. *)
Lemma sorted_reverse_descending l :
  StronglySorted (flip Py.str_le) (Py.sorted_reverse l).
Proof.
  unfold Py.sorted_reverse, Py.sorted.
  pose proof (StronglySorted_merge_sort Py.str_le (reverse l)) as H.
  induction H as [|x l' Hl' IH Hx]; [rewrite reverse_nil; constructor|].
  rewrite reverse_cons. apply StronglySorted_app_2; [|done|repeat constructor].
  intros a b Ha Hb. apply list_elem_of_singleton in Hb as ->.
  rewrite elem_of_reverse in Ha. rewrite Forall_forall in Hx.
  unfold flip. by apply Hx.
Qed.

Lemma slice_from_nonneg {A} (n : Z) (l : list A) :
  (0 ≤ n)%Z → Py.slice_from n l = drop (Z.to_nat n) l.
Proof.
  intros Hn. unfold Py.slice_from.
  destruct (Z.ltb_spec n 0) as [?|_]; [lia|].
  destruct (Z.le_gt_cases n (Z.of_nat (length l))).
  - by rewrite Z.min_l.
  - rewrite Z.min_r, Nat2Z.id by lia. by rewrite !drop_ge by lia.
Qed.

Lemma descending_take_drop l i x y :
  StronglySorted (flip Py.str_le) l → NoDup l →
  x ∈ take i l → y ∈ drop i l → Py.str_lt y x.
Proof.
  intros Hs Hnd Hx Hy. rewrite <-(take_drop i l) in Hs, Hnd.
  apply str_le_neq_lt.
  - by apply (StronglySorted_app_1_elem_of _ _ _ _ _ Hs Hx Hy).
  - intros ->. apply NoDup_app in Hnd as (_ & Hd & _). by apply (Hd x).
Qed.

(** ** Directory listings *)

Lemma child_inj d n d' n' : child d n = child d' n' → d = d' ∧ n = n'.
Proof. unfold child. intros H. by apply app_inj_tail in H. Qed.

Lemma child_not_nil d n : child d n ≠ [].
Proof. unfold child. by destruct d. Qed.

Lemma stat_child s d n : stat s (child d n) = s !! child d n.
Proof. unfold stat. pose proof (child_not_nil d n). by destruct (child d n). Qed.

Lemma child_name_Some d k n : child_name d k = Some n ↔ k = child d n.
Proof.
  unfold child_name, child. split.
  - intros H. rewrite <-(take_drop (length d) k).
    destruct (drop (length d) k) as [|m [|]]; try done.
    case_decide as Ht; [|done]. rewrite Ht. congruence.
  - intros ->. rewrite drop_app_length, take_app_length. by rewrite decide_True.
Qed.

Lemma elem_of_listdir s d n : n ∈ listdir s d ↔ is_Some (s !! child d n).
Proof.
  unfold listdir. rewrite list_elem_of_omap. split.
  - intros ([k e] & Hin & Hn). apply elem_of_map_to_list in Hin.
    apply child_name_Some in Hn. simpl in Hn. subst k. eauto.
  - intros [e He]. exists (child d n, e). split.
    + by apply elem_of_map_to_list.
    + by apply child_name_Some.
Qed.

Lemma NoDup_omap_inj {A B} (f : A → option B) (l : list A) :
  (∀ x y z, f x = Some z → f y = Some z → x = y) → NoDup l → NoDup (omap f l).
Proof.
  intros Hinj. induction 1 as [|x l Hx Hl IH]; simpl; [constructor|].
  destruct (f x) as [z|] eqn:Hfx; [|done].
  constructor; [|done]. rewrite list_elem_of_omap. intros (y & Hy & Hfy).
  by rewrite (Hinj _ _ _ Hfx Hfy) in Hx.
Qed.

Lemma omap_fst {A B C} (f : A → option C) (l : list (A * B)) :
  omap (λ kv, f kv.1) l = omap f (l.*1).
Proof.
  induction l as [|[k e] l IH]; [done|].
  change (omap (λ kv : A * B, f kv.1) ((k, e) :: l))
    with (match f k with
          | Some z => z :: omap (λ kv : A * B, f kv.1) l
          | None => omap (λ kv : A * B, f kv.1) l
          end).
  by rewrite IH.
Qed.

Lemma NoDup_listdir s d : NoDup (listdir s d).
Proof.
  unfold listdir. rewrite omap_fst.
  apply NoDup_omap_inj; [|apply NoDup_fst_map_to_list].
  intros x y z Hx Hy. apply child_name_Some in Hx, Hy. congruence.
Qed.

Lemma elem_of_glob_json_in s d n :
  n ∈ glob_json_in s d ↔
    is_dir s d = true ∧ Py.endswith ".json" n = true ∧ is_Some (s !! child d n).
Proof.
  unfold glob_json_in. destruct (is_dir s d).
  - rewrite list_elem_of_filter, elem_of_listdir. tauto.
  - rewrite elem_of_nil. split; [done|]. by intros [? _].
Qed.

Lemma NoDup_glob_json_in s d : NoDup (glob_json_in s d).
Proof.
  unfold glob_json_in. destruct (is_dir s d); [|constructor].
  apply NoDup_filter, NoDup_listdir.
Qed.

(** ** Running programs *)

Lemma bind_Return {A B} (m : M A) (k : A → M B) w a w' :
  m w = (Return a, w') → bind m k w = k a w'.
Proof. unfold bind. by intros ->. Qed.

Lemma bind_inv_Return {A B} (m : M A) (k : A → M B) w b w2 :
  bind m k w = (Return b, w2) →
  ∃ a w1, m w = (Return a, w1) ∧ k a w1 = (Return b, w2).
Proof.
  unfold bind. destruct (m w) as [[a|e|c] w1]; intros H; try done. eauto.
Qed.

Lemma for_fold_app {A B} (body : B → A → M B) acc l1 l2 w :
  for_fold body acc (l1 ++ l2) w =
  bind (for_fold body acc l1) (λ acc', for_fold body acc' l2) w.
Proof.
  revert acc w. induction l1 as [|x l1 IH]; intros acc w; simpl; [done|].
  unfold bind. destruct (body acc x w) as [[a|e|c] w1]; try done.
Qed.

(** ** The retention loop *)

Lemma is_file_child s d n :
  is_file s (child d n) = true ↔ ∃ c, s !! child d n = Some (File c).
Proof.
  unfold is_file. rewrite stat_child.
  destruct (s !! child d n) as [[c|]|]; naive_solver.
Qed.

Lemma unlink_loop d names s lg acc :
  NoDup names →
  (∀ n, n ∈ names → is_file s (child d n) = true) →
  ∃ s',
    for_fold (λ removed name, unlink (child d name) ;; ret (S removed)) acc names
      (World s lg) = (Return (acc + length names), World s' lg) ∧
    ∀ p, s' !! p = if decide (p ∈ child d <$> names) then None else s !! p.
Proof.
  intros Hnd. revert s acc.
  induction Hnd as [|n names Hn Hnd IH]; intros s acc Hfiles.
  - exists s. split; [simpl; unfold ret; by rewrite Nat.add_0_r|].
    intros p. rewrite decide_False; [done|]. simpl. apply not_elem_of_nil.
  - destruct (proj1 (is_file_child s d n)) as [c Hc]; [apply Hfiles; left|].
    destruct (IH (delete (child d n) s) (S acc)) as (s' & Hrun & Hs').
    { intros m Hm. apply is_file_child.
      destruct (proj1 (is_file_child s d m)) as [c' Hc']; [apply Hfiles; by right|].
      exists c'. rewrite lookup_delete_ne; [done|].
      intros Heq. apply child_inj in Heq as [_ ->]. done. }
    exists s'. split.
    + simpl. unfold bind, unlink, ret. simpl files. rewrite stat_child, Hc. simpl.
      unfold bind, unlink, ret in Hrun. rewrite Hrun. f_equal. f_equal. simpl. lia.
    + intros p. rewrite Hs'. rewrite fmap_cons.
      destruct (decide (p = child d n)) as [->|Hne].
      * rewrite lookup_delete_eq. rewrite (decide_True (P := _ ∈ _ :: _)); [|left].
        by case_decide.
      * rewrite lookup_delete_ne by done.
        destruct (decide (p ∈ child d <$> names)) as [Hin|Hnin].
        -- rewrite decide_True; [done|by right].
        -- rewrite decide_False; [done|]. rewrite elem_of_cons. tauto.
Qed.

Lemma elem_of_take_or_drop {A} (l : list A) i x :
  x ∈ l ↔ x ∈ take i l ∨ x ∈ drop i l.
Proof. by rewrite <-elem_of_app, take_drop. Qed.

(** C1 (amended): for a maximum [N >= 0] and a directory whose [*.json]
    entries are regular files, [k] of them: the retention enforcer returns
    normally, it removes 0 files when [N >= k] and [k - N] files when [N < k],
    the JSON files left are [min k N] of the original ones, unchanged, every
    removed name is lexicographically smaller than every name left, and
    nothing but the removed files changes. *)
Theorem enforce_retention_keeps_greatest (d : path) (N : Z) (w : world) :
  (0 ≤ N)%Z →
  (∀ n, n ∈ glob_json_in (files w) d → is_file (files w) (child d n) = true) →
  let before := glob_json_in (files w) d in
  let k := length before in
  ∃ removed w',
    _enforce_retention d N w = (Return removed, w') ∧
    log w' = log w ∧
    ((Z.of_nat k ≤ N)%Z → removed = 0) ∧
    ((N < Z.of_nat k)%Z → Z.of_nat removed = (Z.of_nat k - N)%Z) ∧
    let after := glob_json_in (files w') d in
    length after = Nat.min k (Z.to_nat N) ∧
    (∀ n, n ∈ after → n ∈ before ∧ files w' !! child d n = files w !! child d n) ∧
    (∀ n m, n ∈ after → m ∈ before → m ∉ after → Py.str_lt m n) ∧
    (∀ p, (∀ m, m ∈ before → m ∉ after → p ≠ child d m) →
          files w' !! p = files w !! p).
Proof.
  intros HN Hfiles before k. destruct w as [s lg].
  cbn [files log] in *.
  assert (_enforce_retention d N (World s lg) =
          if is_dir s d
          then for_fold (λ removed name, unlink (child d name) ;; ret (S removed)) 0
                 (Py.slice_from N (Py.sorted_reverse before)) (World s lg)
          else (Return 0, World s lg)) as ->.
  { unfold _enforce_retention, bind, path_is_dir, glob_json. cbn [files].
    by destruct (is_dir s d). }
  destruct (is_dir s d) eqn:Hd.
  2:{ exists 0, (World s lg). subst k before.
      unfold glob_json_in in *. cbn [files]. rewrite Hd. simpl.
      repeat split; try done; try lia. } set (L := Py.sorted_reverse before).
  rewrite slice_from_nonneg by done. set (i := Z.to_nat N).
  assert (NoDup L) as HndL.
  { unfold L. rewrite sorted_reverse_Permutation. apply NoDup_glob_json_in. }
  assert (∀ n, n ∈ L ↔ n ∈ before) as HL.
  { intros n. unfold L. by rewrite sorted_reverse_Permutation. }
  assert (length L = k) as HlenL.
  { unfold L, k. by rewrite sorted_reverse_Permutation. }
  destruct (unlink_loop d (drop i L) s lg 0) as (s' & Hrun & Hs').
  { rewrite <-(take_drop i L) in HndL. by apply NoDup_app in HndL as (_ & _ & ?). }
  { intros n Hn. apply Hfiles, HL, (elem_of_take_or_drop _ i). by right. }
  assert (is_dir s' d = true) as Hd'.
  { unfold is_dir, stat in *. destruct d as [|x d0]; [done|].
    rewrite Hs'. rewrite decide_False; [done|].
    rewrite list_elem_of_fmap. intros (n & Heq & _).
    apply (f_equal length) in Heq. unfold child in Heq.
    rewrite length_app in Heq. simpl in Heq. lia. }
  assert (∀ n, n ∈ glob_json_in s' d ↔ n ∈ take i L) as Hafter.
  { intros n. rewrite elem_of_glob_json_in, Hs'. split.
    - intros (_ & Hj & Hsome). case_decide as Hin; [by destruct Hsome|].
      assert (n ∈ L) as HnL.
      { apply HL, elem_of_glob_json_in. done. }
      apply (elem_of_take_or_drop _ i) in HnL as [?|Hdrop]; [done|].
      destruct Hin. apply list_elem_of_fmap. eauto.
    - intros Hn. assert (n ∈ before) as Hnb.
      { apply HL, (elem_of_take_or_drop _ i). by left. }
      apply elem_of_glob_json_in in Hnb as (_ & Hj & Hsome).
      split; [done|]. split; [done|]. rewrite decide_False; [done|].
      rewrite list_elem_of_fmap. intros (m & Heq & Hm).
      apply child_inj in Heq as [_ <-].
      rewrite <-(take_drop i L) in HndL. apply NoDup_app in HndL as (_ & Hdisj & _).
      by apply (Hdisj n). }
  exists (0 + length (drop i L)), (World s' lg). simpl files. simpl log.
  split; [done|]. split; [done|].
  rewrite length_drop, HlenL. split; [intros; lia|]. split; [intros; lia|].
  split.
  { assert (glob_json_in s' d ≡ₚ take i L) as ->.
    { apply NoDup_Permutation; [apply NoDup_glob_json_in| |done].
      rewrite <-(take_drop i L) in HndL. by apply NoDup_app in HndL as (? & _). }
    rewrite length_take, HlenL. lia. }
  split.
  { intros n Hn. apply Hafter in Hn. split.
    - apply HL, (elem_of_take_or_drop _ i). by left.
    - rewrite Hs'. rewrite decide_False; [done|].
      rewrite list_elem_of_fmap. intros (m & Heq & Hm).
      apply child_inj in Heq as [_ <-].
      rewrite <-(take_drop i L) in HndL. apply NoDup_app in HndL as (_ & Hdisj & _).
      by apply (Hdisj n). }
  split.
  { intros n m Hn Hm Hm'. apply Hafter in Hn.
    apply (descending_take_drop L i); [apply sorted_reverse_descending|done|done|].
    apply HL, (elem_of_take_or_drop _ i) in Hm as [Hm|Hm]; [|done].
    by apply Hafter in Hm. }
  intros p Hp. rewrite Hs'. rewrite decide_False; [done|].
  rewrite list_elem_of_fmap. intros (m & -> & Hm).
  apply (Hp m); [|intros Hin|done].
  - apply HL, (elem_of_take_or_drop _ i). by right.
  - apply Hafter in Hin.
    rewrite <-(take_drop i L) in HndL. apply NoDup_app in HndL as (_ & Hdisj & _).
    by apply (Hdisj m).
Qed.

Lemma forall_elem_of_dec {A} (P : A → Prop) `{∀ x, Decision (P x)} (l : list A) :
  bool_decide (Forall P l) = true → ∀ x, x ∈ l → P x.
Proof. intros Hb%bool_decide_eq_true. by apply Forall_forall. Qed.

Lemma enforce_retention_keeps_greatest_witness :
  let w := World fs_history [] in
  let before := glob_json_in (files w) ["h"] in
  ∃ removed w',
    _enforce_retention ["h"] 2 w = (Return removed, w') ∧
    log w' = log w ∧
    ((Z.of_nat (length before) ≤ 2)%Z → removed = 0) ∧
    ((2 < Z.of_nat (length before))%Z
       → Z.of_nat removed = (Z.of_nat (length before) - 2)%Z) ∧
    let after := glob_json_in (files w') ["h"] in
    length after = Nat.min (length before) (Z.to_nat 2) ∧
    (∀ n, n ∈ after →
       n ∈ before ∧ files w' !! child ["h"] n = files w !! child ["h"] n) ∧
    (∀ n m, n ∈ after → m ∈ before → m ∉ after → Py.str_lt m n) ∧
    (∀ p, (∀ m, m ∈ before → m ∉ after → p ≠ child ["h"] m) →
          files w' !! p = files w !! p).
Proof.
  apply (enforce_retention_keeps_greatest ["h"] 2 (World fs_history [])).
  - lia.
  - apply (forall_elem_of_dec (λ n, is_file fs_history (child ["h"] n) = true)).
    vm_compute. reflexivity.
Defined.

(** C1 as stated fails for a negative maximum: with three JSON files and
    [N = -1] the slice [files[-1:]] holds one file, so one file is removed
    and two are left, where the claim has [k - N = 4] removed and [N] left. *)
Lemma enforce_retention_negative_maximum :
  let w := World fs_history [] in
  let run := _enforce_retention ["h"] (-1) w in
  length (glob_json_in (files w) ["h"]) = 3 ∧
  run.1 = Return 1 ∧
  Z.of_nat 1 ≠ (Z.of_nat 3 - -1)%Z ∧
  glob_json_in (files run.2) ["h"] = ["2024-01-03.json"; "2024-01-02.json"].
Proof. vm_compute. repeat split; congruence. Qed.

(** ** Creating directories *)

Lemma makedirs_from_cons base n rest s :
  makedirs_from base (n :: rest) s =
  match s !! (base ++ [n]) with
  | Some Dir => makedirs_from (base ++ [n]) rest s
  | Some (File _) =>
      inl (match rest with [] => FileExistsError | _ => NotADirectoryError end)
  | None => makedirs_from (base ++ [n]) rest (<[base ++ [n] := Dir]> s)
  end.
Proof. reflexivity. Qed.

Lemma makedirs_from_inr base rest s s' :
  makedirs_from base rest s = inr s' →
  s ⊆ s' ∧
  (∀ k, s' !! k = s !! k ∨
        (s !! k = None ∧ s' !! k = Some Dir ∧
         ∃ j, 0 < j ≤ length rest ∧ k = base ++ take j rest)) ∧
  (∀ j, 0 < j ≤ length rest → s' !! (base ++ take j rest) = Some Dir).
Proof.
  revert base s. induction rest as [|n rest IH]; intros base s.
  - simpl. intros [= <-]. split; [reflexivity|]. split; [intros k; by left|].
    intros j Hj. lia.
  - rewrite makedirs_from_cons. cbn [length].
    assert (∀ j', base ++ take (S j') (n :: rest) = (base ++ [n]) ++ take j' rest) as Hpath.
    { intros j'. simpl. by rewrite <-app_assoc. }
    destruct (s !! (base ++ [n])) as [[c|]|] eqn:Hp; [intros [=]| |].
    + intros H. apply IH in H as (Hsub & Hframe & Hdirs). split; [done|]. split.
      * intros k. destruct (Hframe k) as [?|(? & ? & j & Hj & ->)]; [by left|right].
        split; [done|]. split; [done|]. exists (S j). rewrite Hpath. split; [simpl; lia|done].
      * intros [|j] Hj; [lia|]. rewrite Hpath. destruct j as [|j].
        -- rewrite take_0, app_nil_r. by apply (lookup_weaken s).
        -- apply Hdirs. simpl in Hj. lia.
    + intros H. apply IH in H as (Hsub & Hframe & Hdirs).
      assert (s ⊆ <[base ++ [n] := Dir]> s) as Hs1.
      { by apply insert_subseteq. }
      split; [by etrans|]. split.
      * intros k. destruct (decide (k = base ++ [n])) as [->|Hne].
        -- right. split; [done|]. split.
           { apply (lookup_weaken (<[base ++ [n] := Dir]> s)); [|done].
             apply lookup_insert_eq. }
           exists 1. rewrite Hpath, take_0, app_nil_r. split; [simpl; lia|done].
        -- destruct (Hframe k) as [Heq|(Hn & Hd & j & Hj & ->)].
           { left. rewrite Heq. by apply lookup_insert_ne. }
           right. rewrite lookup_insert_ne in Hn by done.
           split; [done|]. split; [done|]. exists (S j). rewrite Hpath.
           split; [simpl; lia|done].
      * intros [|j] Hj; [lia|]. rewrite Hpath. destruct j as [|j].
        -- rewrite take_0, app_nil_r.
           apply (lookup_weaken (<[base ++ [n] := Dir]> s)); [|done].
           apply lookup_insert_eq.
        -- apply Hdirs. simpl in Hj. lia.
Qed.

Lemma makedirs_from_inl base rest s e :
  makedirs_from base rest s = inl e →
  ∃ j c, 0 < j ≤ length rest ∧ s !! (base ++ take j rest) = Some (File c).
Proof.
  revert base s. induction rest as [|n rest IH]; intros base s; [done|].
  rewrite makedirs_from_cons. cbn [length].
  assert (∀ j', base ++ take (S j') (n :: rest) = (base ++ [n]) ++ take j' rest) as Hpath.
  { intros j'. simpl. by rewrite <-app_assoc. }
  destruct (s !! (base ++ [n])) as [[c|]|] eqn:Hp.
  - intros _. exists 1, c. rewrite Hpath, take_0, app_nil_r. split; [simpl; lia|done].
  - intros (j & c & Hj & Hc)%IH. exists (S j), c. rewrite Hpath.
    split; [simpl; lia|done].
  - intros (j & c & Hj & Hc)%IH. exists (S j), c. rewrite Hpath.
    split; [simpl; lia|].
    rewrite lookup_insert_ne in Hc; [done|].
    intros Heq. apply (f_equal length) in Heq.
    rewrite !length_app, length_take in Heq. simpl in Heq. lia.
Qed.

(** [makedirs] changes nothing when the directory is there with its parents. *)
Lemma makedirs_from_noop base rest s :
  (∀ j, 0 < j ≤ length rest → s !! (base ++ take j rest) = Some Dir) →
  makedirs_from base rest s = inr s.
Proof.
  revert base. induction rest as [|n rest IH]; intros base Hdirs; [done|].
  rewrite makedirs_from_cons. cbn [length] in Hdirs.
  assert (∀ j', base ++ take (S j') (n :: rest) = (base ++ [n]) ++ take j' rest) as Hpath.
  { intros j'. simpl. by rewrite <-app_assoc. }
  pose proof (Hdirs 1) as H1. rewrite Hpath, take_0, app_nil_r in H1.
  rewrite H1 by (simpl; lia). apply IH. intros j Hj. rewrite <-Hpath.
  apply Hdirs. simpl. lia.
Qed.

(** ** Loops *)

(** A relation between the worlds before and after that is reflexive,
    transitive and kept by every iteration is kept by the loop, whatever the
    outcome. *)
Lemma for_fold_rel {A B} (R : world → world → Prop) (body : B → A → M B) l :
  (∀ w, R w w) →
  (∀ w1 w2 w3, R w1 w2 → R w2 w3 → R w1 w3) →
  (∀ acc x w o w', x ∈ l → body acc x w = (o, w') → R w w') →
  ∀ acc w o w', for_fold body acc l w = (o, w') → R w w'.
Proof.
  intros Hrefl Htrans. induction l as [|x l IH]; intros Hbody acc w o w'; simpl.
  - unfold ret. intros [= _ <-]. apply Hrefl.
  - unfold bind. destruct (body acc x w) as [[a|e|c] w1] eqn:Hx.
    + intros Hrest. apply (Htrans _ w1).
      * eapply Hbody; [left|done].
      * eapply IH; [|done]. intros. eapply Hbody; [by right|done].
    + intros [= _ <-]. eapply Hbody; [left|done].
    + intros [= _ <-]. eapply Hbody; [left|done].
Qed.

(** ** The file copy primitive *)

Lemma makedirs_inv p w o w' :
  makedirs p w = (o, w') →
  log w' = log w ∧
  ((∃ e, o = Raise e ∧ w' = w ∧ makedirs_from [] p (files w) = inl e) ∨
   (o = Return tt ∧ makedirs_from [] p (files w) = inr (files w'))).
Proof.
  unfold makedirs. destruct (makedirs_from [] p (files w)) as [e|s1] eqn:Hm.
  - intros [= <- <-]. split; [done|]. left. eauto.
  - intros [= <- <-]. split; [done|]. right. done.
Qed.

Lemma exists_child_false s d n : exists_ s (child d n) = false ↔ s !! child d n = None.
Proof. unfold exists_. rewrite stat_child. by destruct (s !! child d n). Qed.

Lemma is_dir_child s d n : is_dir s (child d n) = true ↔ s !! child d n = Some Dir.
Proof. unfold is_dir. rewrite stat_child. apply bool_decide_eq_true. Qed.

Lemma is_dir_child_false s d n : is_dir s (child d n) = false ↔ s !! child d n ≠ Some Dir.
Proof. unfold is_dir. rewrite stat_child. apply bool_decide_eq_false. Qed.

(** What [copy2] onto a path with a last component can do. *)
Lemma copy2_inv src d n w o w' :
  copy2 src (child d n) w = (o, w') →
  log w' = log w ∧
  (((∃ e, o = Raise e) ∧ w' = w) ∨
   (∃ c target,
      o = Return tt ∧ stat (files w) src = Some (File c) ∧
      target = (if is_dir (files w) (child d n)
                then child (child d n) (basename src) else child d n) ∧
      src ≠ target ∧
      files w !! target ≠ Some Dir ∧
      files w' = <[target := File c]> (files w))).
Proof.
  unfold copy2.
  set (target := if is_dir (files w) (child d n)
                 then child (child d n) (basename src) else child d n).
  destruct (exists_ (files w) src && bool_decide (src = target)) eqn:Hsame;
    [intros [= <- <-]; split; [done|]; left; eauto|].
  destruct (stat (files w) src) as [[c|]|] eqn:Hsrc;
    [|intros [= <- <-]; split; [done|]; left; eauto..].
  assert (src ≠ target) as Hne.
  { intros Heq. unfold exists_ in Hsame. rewrite Hsrc in Hsame. simpl in Hsame.
    by apply bool_decide_eq_false in Hsame. }
  assert (∃ t k, target = child t k) as (t & k & Ht).
  { unfold target. destruct (is_dir _ _); eauto. }
  unfold write_file. rewrite Ht, stat_child, <-Ht.
  destruct (files w !! target) as [[c'|]|] eqn:Htgt;
    [|intros [= <- <-]; split; [done|]; left; eauto|];
    (destruct (stat (files w) (parent target)) as [[?|]|];
     [intros [= <- <-]; split; [done|]; left; eauto
     |intros [= <- <-]; split; [done|]; right; exists c, target;
      rewrite Htgt; repeat split; done
     |intros [= <- <-]; split; [done|]; left; eauto]).
Qed.

Local Abbreviation copy_body src_dir dst_dir skip_existing :=
  (λ (copied : nat) (name : string),
     let dst := child dst_dir name in
     do there <- path_exists dst;
     if skip_existing && there then ret copied
     else copy2 (child src_dir name) dst ;; ret (S copied)).

Lemma copy_json_files_unfold src dst skip w :
  _copy_json_files src dst skip w =
  match makedirs dst w with
  | (Return _, w1) =>
      for_fold (copy_body src dst skip) 0 (glob_json_in (files w1) src) w1
  | (Raise e, w1) => (Raise e, w1)
  | (SysExit c, w1) => (SysExit c, w1)
  end.
Proof.
  unfold _copy_json_files, bind, glob_json.
  by destruct (makedirs dst w) as [[[]|e|c] w1].
Qed.

(** One iteration either leaves the world as it is (the file is skipped, or
    the copy fails) or writes one file. *)
Lemma copy_body_inv src dst skip acc n w o w' :
  copy_body src dst skip acc n w = (o, w') →
  log w' = log w ∧
  ((w' = w ∧
    ((o = Return acc ∧ skip = true ∧ exists_ (files w) (child dst n) = true) ∨
     ∃ e, o = Raise e)) ∨
   (∃ c target,
      o = Return (S acc) ∧
      (skip = true → files w !! child dst n = None) ∧
      files w !! child src n = Some (File c) ∧
      target = (if is_dir (files w) (child dst n)
                then child (child dst n) n else child dst n) ∧
      child src n ≠ target ∧
      files w !! target ≠ Some Dir ∧
      files w' = <[target := File c]> (files w))).
Proof.
  cbn beta zeta. unfold bind at 1. unfold path_exists at 1.
  destruct (skip && exists_ (files w) (child dst n)) eqn:Hskip.
  - unfold ret. intros [= <- <-]. split; [done|]. left. split; [done|]. left.
    apply andb_true_iff in Hskip as [-> ->]. done.
  - unfold bind, ret.
    destruct (copy2 (child src n) (child dst n) w) as [[[]|e|c] w1] eqn:Hc;
      intros [= <- <-]; apply copy2_inv in Hc as [Hlog Hc]; (split; [done|]).
    + destruct Hc as [[[e He] _]|(c & target & _ & Hsrc & Ht & Hne & Hnd & Hw)]; [done|].
      right. exists c, target. rewrite stat_child in Hsrc.
      assert (basename (child src n) = n) as Hbase.
      { unfold basename, child. by rewrite last_snoc. }
      rewrite Hbase in Ht. repeat split; try done.
      intros ->. simpl in Hskip. by apply exists_child_false.
    + destruct Hc as [[_ ->]|(? & ? & ? & _)]; [|done]. left. eauto.
    + destruct Hc as [[[? ?] _]|(? & ? & ? & _)]; done.
Qed.

(** The copy loop writes regular files only, at [dst/m] or (when that is a
    directory) at [dst/m/m] for the names [m] it goes through, never over a
    directory; when existing files are skipped it only adds entries. *)
Lemma copy_loop_footprint src dst skip names acc w o w' :
  for_fold (copy_body src dst skip) acc names w = (o, w') →
  log w' = log w ∧
  (skip = true → files w ⊆ files w') ∧
  ∀ p, files w' !! p = files w !! p ∨
       ∃ m c, m ∈ names ∧ (p = child dst m ∨ p = child (child dst m) m) ∧
              files w' !! p = Some (File c) ∧ files w !! p ≠ Some Dir.
Proof.
  apply (for_fold_rel (λ w w',
    log w' = log w ∧
    (skip = true → files w ⊆ files w') ∧
    ∀ p, files w' !! p = files w !! p ∨
         ∃ m c, m ∈ names ∧ (p = child dst m ∨ p = child (child dst m) m) ∧
                files w' !! p = Some (File c) ∧ files w !! p ≠ Some Dir)).
  - intros w0. split; [done|]. split; [done|]. intros p. by left.
  - intros w1 w2 w3 (Hl12 & Hs12 & Hf12) (Hl23 & Hs23 & Hf23). cbv beta.
    split; [congruence|].
    split; [intros Hs; transitivity (files w2); auto|].
    intros p. destruct (Hf23 p) as [Heq|(m & c & Hm & Hp & Hc & Hnd)].
    + rewrite Heq. destruct (Hf12 p) as [?|(m & c & ? & ? & ? & ?)]; [by left|].
      right. exists m, c. done.
    + right. exists m, c. repeat split; try done.
      destruct (Hf12 p) as [Heq|(? & ? & _ & _ & _ & ?)]; [congruence|done].
  - intros acc0 n w0 o0 w0' Hn Hbody. cbv beta.
    apply copy_body_inv in Hbody as [Hlog [[-> _]|Hwrite]].
    { split; [done|]. split; [done|]. intros p. by left. }
    destruct Hwrite as (c & target & _ & Hskip & Hsrc & Ht & Hne & Hnd & Hw).
    split; [done|]. rewrite Hw. split.
    + intros Hs. specialize (Hskip Hs).
      assert (target = child dst n) as ->.
      { rewrite Ht. destruct (is_dir (files w0) (child dst n)) eqn:Hd; [|done].
        apply is_dir_child in Hd. congruence. }
      by apply insert_subseteq.
    + intros p. destruct (decide (p = target)) as [->|Hp].
      * right. exists n, c. rewrite lookup_insert_eq. repeat split; try done.
        rewrite Ht. destruct (is_dir _ _); eauto.
      * left. by rewrite lookup_insert_ne.
Qed.

Lemma child_length d n : length (child d n) = S (length d).
Proof. unfold child. rewrite length_app. simpl. lia. Qed.

Lemma child_child_ne d m k n : child (child d m) k ≠ child d n.
Proof.
  intros Heq. apply (f_equal length) in Heq. rewrite !child_length in Heq. lia.
Qed.

Lemma child_ne_take d n j : child d n ≠ take j d.
Proof.
  intros Heq. apply (f_equal length) in Heq.
  rewrite child_length, length_take in Heq. lia.
Qed.

Lemma child_child_ne_take d m k j : child (child d m) k ≠ take j d.
Proof.
  intros Heq. apply (f_equal length) in Heq.
  rewrite !child_length, length_take in Heq. lia.
Qed.

(** The whole primitive: besides the files of the loop it creates the missing
    directories down to [dst]. *)
Lemma copy_json_files_footprint src dst skip w o w' :
  _copy_json_files src dst skip w = (o, w') →
  log w' = log w ∧
  (skip = true → files w ⊆ files w') ∧
  ∀ p, files w' !! p = files w !! p ∨
       (files w !! p = None ∧ files w' !! p = Some Dir ∧
        ∃ j, 0 < j ≤ length dst ∧ p = take j dst) ∨
       (∃ m c, Py.endswith ".json" m = true ∧
               (p = child dst m ∨ p = child (child dst m) m) ∧
               files w' !! p = Some (File c) ∧ files w !! p ≠ Some Dir).
Proof.
  rewrite copy_json_files_unfold.
  destruct (makedirs dst w) as [[[]|e|c] w1] eqn:Hmk;
    apply makedirs_inv in Hmk as [Hlog1 [(e' & ? & -> & _)|[? Hmk]]]; try done.
  2:{ intros [= <- <-]. split; [done|]. split; [done|]. intros p. by left. }
  intros Hloop. pose proof Hloop as Hloop'.
  apply copy_loop_footprint in Hloop as (Hlog & Hsub & Hfoot).
  apply makedirs_from_inr in Hmk as (Hsub1 & Hframe1 & _).
  split; [congruence|]. split; [intros Hs; transitivity (files w1); auto|].
  intros p. destruct (Hfoot p) as [Heq|(m & c & Hm & Hp & Hc & Hnd)].
  - rewrite Heq. destruct (Hframe1 p) as [?|(? & ? & j & ? & ?)]; [by left|].
    right. left. eauto.
  - right. right. exists m, c.
    apply elem_of_glob_json_in in Hm as (_ & Hj & _).
    repeat split; try done. intros Hd. apply Hnd.
    by apply (lookup_weaken (files w)).
Qed.

(** Without skipping, a loop that returns has copied every file it went
    through onto [dst/n], unless a directory was in that place. *)
Lemma copy_loop_copies src dst names :
  NoDup names →
  ∀ acc w count w',
    for_fold (copy_body src dst false) acc names w = (Return count, w') →
    ∀ n c, n ∈ names →
      files w !! child src n = Some (File c) →
      files w !! child dst n ≠ Some Dir →
      files w' !! child dst n = Some (File c).
Proof.
  induction 1 as [|h t Hh Hnd IH]; intros acc w count w' Hrun n c Hn Hsrc Hdst.
  { by apply elem_of_nil in Hn. }
  cbn [for_fold] in Hrun. apply bind_inv_Return in Hrun as (a & w1 & Hbody & Hrest).
  apply (copy_body_inv src dst false acc h) in Hbody
    as [_ [[_ [(_ & ? & _)|[? ?]]]|Hwrite]]; try done.
  destruct Hwrite as (ch & target & _ & _ & Hsrch & Ht & Hne & Htd & Hw1).
  apply elem_of_cons in Hn as [->|Hn].
  - assert (target = child dst h) as ->.
    { rewrite Ht. by apply is_dir_child_false in Hdst as ->. }
    assert (ch = c) as -> by congruence.
    apply copy_loop_footprint in Hrest as (_ & _ & Hfoot).
    destruct (Hfoot (child dst h)) as [->|(m & ? & Hm & [Heq|Heq] & _)].
    + rewrite Hw1. apply lookup_insert_eq.
    + apply child_inj in Heq as [_ <-]. done.
    + symmetry in Heq. by apply child_child_ne in Heq.
  - assert (n ≠ h) as Hnh by (intros ->; done).
    assert (target ≠ child src n) as Hts.
    { rewrite Ht. destruct (is_dir _ _); intros Heq; apply child_inj in Heq as [_ ?];
        congruence. }
    eapply (IH _ w1); [done|done| |].
    + rewrite Hw1. by rewrite lookup_insert_ne.
    + rewrite Hw1. destruct (decide (target = child dst n)) as [->|?].
      * by rewrite lookup_insert_eq.
      * by rewrite lookup_insert_ne.
Qed.

Lemma is_dir_weaken s s' p : s ⊆ s' → is_dir s p = true → is_dir s' p = true.
Proof.
  unfold is_dir, stat. intros Hsub. destruct p as [|x p]; [done|].
  rewrite !bool_decide_eq_true. intros Hp. by apply (lookup_weaken s).
Qed.

(** C2: without skip-existing, a call that returns has copied every JSON file
    of the source directory to the same name in the destination, over a file
    of that name if there was one (a directory of that name is not replaced);
    with skip-existing, whatever the outcome of the call, every file that was
    in the destination before still has its content. *)
Theorem copy_json_files_overwrite_or_skip (src dst : path) (w : world) :
  (∀ count w',
     _copy_json_files src dst false w = (Return count, w') →
     ∀ n c,
       is_dir (files w) src = true →
       Py.endswith ".json" n = true →
       files w !! child src n = Some (File c) →
       files w !! child dst n ≠ Some Dir →
       files w' !! child dst n = Some (File c)) ∧
  (∀ o w',
     _copy_json_files src dst true w = (o, w') →
     ∀ n c,
       files w !! child dst n = Some (File c) →
       files w' !! child dst n = Some (File c)).
Proof.
  split.
  - intros count w' Hrun n c Hd Hj Hsrc Hdst.
    rewrite copy_json_files_unfold in Hrun.
    destruct (makedirs dst w) as [[[]|e|x] w1] eqn:Hmk; try done.
    apply makedirs_inv in Hmk as [_ [(? & ? & _)|[_ Hmk]]]; [done|].
    apply makedirs_from_inr in Hmk as (Hsub & Hframe & _).
    eapply copy_loop_copies; [apply NoDup_glob_json_in|exact Hrun| | |].
    + apply elem_of_glob_json_in. split; [by eapply is_dir_weaken|].
      split; [done|]. exists (File c). by apply (lookup_weaken (files w)).
    + by apply (lookup_weaken (files w)).
    + destruct (Hframe (child dst n)) as [->|(_ & _ & j & _ & Heq)]; [done|].
      simpl in Heq. by apply child_ne_take in Heq.
  - intros o w' Hrun n c Hc.
    apply copy_json_files_footprint in Hrun as (_ & Hsub & _).
    apply (lookup_weaken (files w)); [done|by apply Hsub].
Qed.

(** C8 (amended): when the source is not a directory, no regular file stands
    at the destination path or above it, and the destination is not inside the
    source, the call returns a count of zero, having created the destination
    directory and nothing else. *)
Theorem copy_json_files_absent_source (src dst : path) (skip : bool) (w : world) :
  is_dir (files w) src = false →
  (∀ j c, files w !! take j dst ≠ Some (File c)) →
  ¬ src `prefix_of` dst →
  ∃ w',
    _copy_json_files src dst skip w = (Return 0, w') ∧
    log w' = log w ∧
    is_dir (files w') dst = true ∧
    ∀ p, files w' !! p = files w !! p ∨
         (files w !! p = None ∧ files w' !! p = Some Dir ∧ p `prefix_of` dst).
Proof.
  intros Hsrc Hfree Hpre. rewrite copy_json_files_unfold. unfold makedirs.
  destruct (makedirs_from [] dst (files w)) as [e|s1] eqn:Hmk.
  { apply makedirs_from_inl in Hmk as (j & c & _ & Hc). by apply Hfree in Hc. }
  apply makedirs_from_inr in Hmk as (Hsub & Hframe & Hdirs). simpl in Hframe, Hdirs.
  assert (is_dir s1 src = false) as Hsrc1.
  { unfold is_dir, stat in *. destruct src as [|x src]; [done|].
    apply bool_decide_eq_false. apply bool_decide_eq_false in Hsrc.
    destruct (Hframe (x :: src)) as [->|(_ & _ & j & _ & Heq)]; [done|].
    destruct Hpre. rewrite Heq. apply prefix_take. }
  exists (World s1 (log w)). cbn [files log].
  unfold glob_json_in. rewrite Hsrc1. split; [done|]. split; [done|]. split.
  - unfold is_dir, stat. destruct dst as [|x dst]; [done|].
    apply bool_decide_eq_true. rewrite <-(firstn_all (x :: dst)).
    apply Hdirs. simpl. lia.
  - intros p. destruct (Hframe p) as [?|(? & ? & j & _ & ->)]; [by left|right].
    split; [done|]. split; [done|]. apply prefix_take.
Qed.

Lemma copy_json_files_overwrite_or_skip_witness :
  let w := World fs_copy [] in
  files (_copy_json_files ["s"] ["d"] false w).2 !! ["d"; "a.json"]
    = Some (File "new-a") ∧
  files (_copy_json_files ["s"] ["d"] true w).2 !! ["d"; "a.json"]
    = Some (File "old-a").
Proof.
  intros w. split.
  - apply (proj1 (copy_json_files_overwrite_or_skip ["s"] ["d"] w) 2
             (_copy_json_files ["s"] ["d"] false w).2 eq_refl "a.json" "new-a").
    + reflexivity.
    + reflexivity.
    + reflexivity.
    + discriminate.
  - apply (proj2 (copy_json_files_overwrite_or_skip ["s"] ["d"] w)
             (_copy_json_files ["s"] ["d"] true w).1
             (_copy_json_files ["s"] ["d"] true w).2 eq_refl "a.json" "old-a").
    reflexivity.
Defined.

Lemma copy_json_files_absent_source_witness :
  let w := World fs_copy [] in
  ∃ w',
    _copy_json_files ["nosrc"] ["d"; "sub"] false w = (Return 0, w') ∧
    log w' = log w ∧
    is_dir (files w') ["d"; "sub"] = true ∧
    ∀ p, files w' !! p = files w !! p ∨
         (files w !! p = None ∧ files w' !! p = Some Dir ∧ p `prefix_of` ["d"; "sub"]).
Proof.
  apply (copy_json_files_absent_source ["nosrc"] ["d"; "sub"] false (World fs_copy [])).
  - reflexivity.
  - intros [|[|[|j]]] c; discriminate.
  - intros [k Hk]. discriminate.
Defined.

(** C8 as stated fails when a regular file stands where the destination
    directory is to be created: the source is absent and the call raises. *)
Lemma copy_json_files_destination_blocked :
  let w := World fs_blocked [] in
  is_dir (files w) ["nosrc"] = false ∧
  _copy_json_files ["nosrc"] ["f"] false w = (Raise FileExistsError, w).
Proof. split; reflexivity. Qed.

(** ** What the retention enforcer touches *)

Lemma unlink_inv p w o w' :
  unlink p w = (o, w') →
  log w' = log w ∧
  (((∃ e, o = Raise e) ∧ w' = w) ∨
   (o = Return tt ∧ (∃ c, stat (files w) p = Some (File c)) ∧
    files w' = delete p (files w))).
Proof.
  unfold unlink. destruct (stat (files w) p) as [[c|]|]; intros [= <- <-];
    (split; [done|]); eauto.
Qed.

Lemma unlink_loop_footprint d names acc w o w' :
  for_fold (λ removed name, unlink (child d name) ;; ret (S removed)) acc names w
    = (o, w') →
  log w' = log w ∧
  ∀ p, files w' !! p = files w !! p ∨
       ∃ m, m ∈ names ∧ p = child d m ∧ files w' !! p = None.
Proof.
  apply (for_fold_rel (λ w w',
    log w' = log w ∧
    ∀ p, files w' !! p = files w !! p ∨
         ∃ m, m ∈ names ∧ p = child d m ∧ files w' !! p = None)).
  - intros w0. split; [done|]. intros p. by left.
  - intros w1 w2 w3 (Hl12 & Hf12) (Hl23 & Hf23). cbv beta.
    split; [congruence|]. intros p.
    destruct (Hf23 p) as [Heq|(m & ? & ? & ?)]; [|right; eauto].
    rewrite Heq. destruct (Hf12 p) as [?|(m & ? & ? & ?)]; [by left|right; eauto].
  - intros acc0 n w0 o0 w0' Hn. cbv beta. unfold bind, ret.
    destruct (unlink (child d n) w0) as [[[]|e|c] w1] eqn:Hu; intros [= <- <-];
      apply unlink_inv in Hu as [Hlog [[_ ->]|(Ho & _ & Hw)]]; try done;
      (split; [done|]); intros p; try (by left).
    rewrite Hw. destruct (decide (p = child d n)) as [->|?].
    + right. exists n. by rewrite lookup_delete_eq.
    + left. by rewrite lookup_delete_ne.
Qed.

Lemma enforce_retention_footprint d N w o w' :
  _enforce_retention d N w = (o, w') →
  log w' = log w ∧
  ∀ p, files w' !! p = files w !! p ∨
       ∃ m, Py.endswith ".json" m = true ∧ p = child d m ∧ files w' !! p = None.
Proof.
  unfold _enforce_retention, bind, path_is_dir, glob_json. cbn [files].
  destruct (is_dir (files w) d); cbn [negb].
  2:{ unfold ret. intros [= <- <-]. split; [done|]. intros p. by left. }
  intros Hloop. apply unlink_loop_footprint in Hloop as [Hlog Hfoot].
  split; [done|]. intros p. destruct (Hfoot p) as [?|(m & Hm & ? & ?)]; [by left|].
  right. exists m. split; [|done].
  unfold Py.slice_from in Hm.
  assert (m ∈ Py.sorted_reverse (glob_json_in (files w) d)) as Hin.
  { eapply elem_of_take_or_drop. right. exact Hm. }
  rewrite sorted_reverse_Permutation in Hin.
  by apply elem_of_glob_json_in in Hin as (_ & ? & _).
Qed.

(** C10: for a name that does not end in [.json], whatever the arguments and
    the outcome, the file copy primitive leaves the entry of that name in the
    destination as it was (nothing is copied to it), and the retention
    enforcer leaves the entry of that name in the target directory as it was
    (it is not deleted), for every maximum [N]. *)
Theorem primitives_touch_json_only
    (src dst d : path) (skip : bool) (N : Z) (w : world) (n : string) :
  Py.endswith ".json" n = false →
  files (_copy_json_files src dst skip w).2 !! child dst n = files w !! child dst n ∧
  files (_enforce_retention d N w).2 !! child d n = files w !! child d n.
Proof.
  intros Hn. split.
  - destruct (_copy_json_files src dst skip w) as [o w'] eqn:Hrun.
    apply copy_json_files_footprint in Hrun as (_ & _ & Hfoot). cbn [snd].
    destruct (Hfoot (child dst n))
      as [?|[(_ & _ & j & _ & Heq)|(m & c & Hm & [Heq|Heq] & _)]]; [done| | |].
    + by apply child_ne_take in Heq.
    + apply child_inj in Heq as [_ ->]. congruence.
    + symmetry in Heq. by apply child_child_ne in Heq.
  - destruct (_enforce_retention d N w) as [o w'] eqn:Hrun.
    apply enforce_retention_footprint in Hrun as (_ & Hfoot). cbn [snd].
    destruct (Hfoot (child d n)) as [?|(m & Hm & Heq & _)]; [done|].
    apply child_inj in Heq as [_ ->]. congruence.
Qed.

Lemma primitives_touch_json_only_witness :
  files (_copy_json_files ["s"] ["d"] false (World fs_copy [])).2
    !! child ["d"] "readme.txt" = fs_copy !! child ["d"] "readme.txt" ∧
  files (_enforce_retention ["h"] 0 (World fs_history [])).2
    !! child ["h"] "notes.txt" = fs_history !! child ["h"] "notes.txt".
Proof.
  split.
  - apply (primitives_touch_json_only ["s"] ["d"] ["h"] false 0 (World fs_copy [])
             "readme.txt"). reflexivity.
  - apply (primitives_touch_json_only ["s"] ["d"] ["h"] false 0 (World fs_history [])
             "notes.txt"). reflexivity.
Defined.

(** ** prepare-history *)

(** The components of a path string in normal form: none is empty or [.],
    none holds a slash. *)
Lemma append_nil_l (s : string) : EmptyString +:+ s = s.
Proof. reflexivity. Qed.

Lemma append_cons a (s t : string) : String a s +:+ t = String a (s +:+ t).
Proof. reflexivity. Qed.

Lemma append_nil_r (s : string) : s +:+ EmptyString = s.
Proof.
  induction s as [|a s' IH]; [done|]. by rewrite append_cons, IH.
Qed.

Lemma append_assoc (a b c : string) : (a +:+ b) +:+ c = a +:+ (b +:+ c).
Proof.
  induction a as [|x a' IH]; [done|]. by rewrite !append_cons, IH.
Qed.

Lemma contains_slash_cons a c :
  Py.contains "/" (String a c) = false →
  Ascii.eqb a "/" = false ∧ Py.contains "/" c = false.
Proof.
  cbn [Py.contains String.prefix]. intros H. apply orb_false_iff in H as [Hp Hc].
  split; [|done]. destruct (Ascii.eqb_spec a "/") as [->|]; [|done].
  destruct (ascii_dec "/" "/"); [by destruct c|done].
Qed.

Lemma split_slash_app c : ∀ s cur,
  Py.contains "/" c = false →
  split_slash (c +:+ s) cur = split_slash s (cur +:+ c).
Proof.
  induction c as [|a c IH]; intros s cur Hc.
  - by rewrite append_nil_l, append_nil_r.
  - apply contains_slash_cons in Hc as [Ha Hc].
    rewrite append_cons. cbn [split_slash]. rewrite Ha.
    rewrite IH by done. by rewrite append_assoc, append_cons, append_nil_l.
Qed.

Lemma split_slash_concat comps : ∀ c cur,
  Forall (λ c, Py.contains "/" c = false) (c :: comps) →
  split_slash (String.concat "/" (c :: comps)) cur = (cur +:+ c) :: comps.
Proof.
  induction comps as [|c2 comps IH]; intros c cur Hall.
  - apply Forall_cons in Hall as [Hc _]. cbn [String.concat].
    rewrite <-(append_nil_r c) at 1. by rewrite split_slash_app.
  - apply Forall_cons in Hall as [Hc Hall].
    change (String.concat "/" (c :: c2 :: comps))
      with (c +:+ String "/" (String.concat "/" (c2 :: comps))).
    rewrite split_slash_app by done. cbn [split_slash].
    change (Ascii.eqb "/" "/") with true. cbn iota.
    by rewrite IH, append_nil_l.
Qed.

Lemma filter_components comps :
  Forall (λ c, is_component c = true) comps →
  filter (λ c, is_component c = true) comps = comps.
Proof.
  induction 1 as [|c comps Hc _ IH]; [done|].
  by rewrite filter_cons, decide_True, IH.
Qed.

Lemma component_first_char c :
  is_component c = true → Py.contains "/" c = false →
  ∃ a c', c = String a c' ∧ a ≠ "/"%char.
Proof.
  destruct c as [|a c']; [done|]. intros _ Hc.
  apply contains_slash_cons in Hc as [Ha _]. exists a, c'. split; [done|].
  intros ->. done.
Qed.

Lemma component_not_root c :
  is_component c = true → Py.contains "/" c = false → is_root c = false.
Proof.
  intros Hc Hs. destruct (component_first_char c Hc Hs) as (a & c' & -> & Ha).
  unfold is_root. apply orb_false_iff.
  split; apply String.eqb_neq; intros [= ? _]; done.
Qed.

Lemma concat_first_char a c comps :
  String.concat "/" (String a c :: comps)
  = String a (match comps with [] => c | _ => c +:+ String "/" (String.concat "/" comps) end).
Proof. by destruct comps. Qed.

(** pathlib leaves a path string in normal form as it is, relative ([a/b/c])
    or absolute ([/a/b/c]). *)
Lemma show_path_Path_normal comps :
  comps ≠ [] →
  Forall (λ c, is_component c = true ∧ Py.contains "/" c = false) comps →
  show_path (Path (String.concat "/" comps)) = String.concat "/" comps ∧
  show_path (Path ("/" +:+ String.concat "/" comps)) = "/" +:+ String.concat "/" comps.
Proof.
  intros Hne Hall. destruct comps as [|c comps]; [done|].
  assert (Forall (λ c, is_component c = true) (c :: comps)) as Hcomp.
  { eapply Forall_impl; [exact Hall|]. by intros ? [? _]. }
  assert (Forall (λ c, Py.contains "/" c = false) (c :: comps)) as Hslash.
  { eapply Forall_impl; [exact Hall|]. by intros ? [_ ?]. }
  pose proof Hall as Hc. apply Forall_cons in Hc as [[Hc Hs] _].
  destruct (component_first_char c Hc Hs) as (a & c' & -> & Ha).
  split.
  - unfold Path. rewrite split_slash_concat by done. rewrite append_nil_l.
    rewrite filter_components by done.
    assert (splitroot (String.concat "/" (String a c' :: comps)) = None) as ->.
    { rewrite concat_first_char. unfold splitroot. cbn [String.prefix].
      by destruct (ascii_dec "/" a) as [<-|_]. }
    unfold show_path. by rewrite component_not_root.
  - change ("/" +:+ String.concat "/" (String a c' :: comps))
      with (String "/" (String.concat "/" (String a c' :: comps))).
    unfold Path. cbn [split_slash]. change (Ascii.eqb "/" "/") with true. cbn iota.
    rewrite split_slash_concat by done. rewrite append_nil_l.
    rewrite filter_cons, decide_False by done.
    rewrite filter_components by done.
    assert (splitroot (String "/" (String.concat "/" (String a c' :: comps))) = Some "/")
      as ->.
    { rewrite concat_first_char. unfold splitroot. cbn [String.prefix].
      destruct (ascii_dec "/" "/"); [|done].
      by destruct (ascii_dec "/" a) as [<-|_]. }
    unfold show_path. change (is_root "/") with true. reflexivity.
Qed.

Lemma prefix_append s b : String.prefix s (s +:+ b) = true.
Proof.
  induction s as [|a s' IH]; [by destruct b|].
  rewrite append_cons. cbn [String.prefix]. by destruct (ascii_dec a a).
Qed.

Lemma contains_append a s b : Py.contains s (a +:+ s +:+ b) = true.
Proof.
  induction a as [|x a IH].
  - rewrite append_nil_l. destruct (s +:+ b) eqn:Heq.
    + cbn [Py.contains]. rewrite <-Heq. by rewrite prefix_append.
    + cbn [Py.contains]. rewrite <-Heq. by rewrite prefix_append.
  - rewrite append_cons. cbn [Py.contains]. rewrite IH. apply orb_true_r.
Qed.

(** C7 (amended): when the path given as [--previous-pages-dir] is not a
    directory, prepare-history returns normally (exit code 0), leaves the
    filesystem as it is (no file is copied for any category), and prints
    exactly one line on standard output: "No previous pages directory found
    at P, skipping history preparation", where P is the path as pathlib
    renders it, [str(Path(given))].  For a given string in normal form
    ([a/b/c] or [/a/b/c], no component empty or [.]) P is the given string,
    and the line contains it. *)
Theorem prepare_history_no_previous (args : Prepare.Namespace) (w : world) :
  let given := Prepare.previous_pages_dir args in
  let line := "No previous pages directory found at " +:+ show_path (Path given)
                +:+ ", skipping history preparation" in
  is_dir (files w) (Path given) = false →
  prepare_history args w = (Return tt, World (files w) (log w ++ [Stdout line])) ∧
  (∀ comps,
     comps ≠ [] →
     Forall (λ c, is_component c = true ∧ Py.contains "/" c = false) comps →
     given = String.concat "/" comps ∨ given = "/" +:+ String.concat "/" comps →
     show_path (Path given) = given ∧ Py.contains given line = true).
Proof.
  intros given line Hd. split.
  - unfold prepare_history, bind, path_is_dir. fold given. by rewrite Hd.
  - intros comps Hne Hall Hgiven.
    assert (show_path (Path given) = given) as Heq.
    { destruct (show_path_Path_normal comps Hne Hall) as [Hrel Habs].
      destruct Hgiven as [-> | ->]; done. }
    split; [done|]. unfold line. rewrite Heq. apply contains_append.
Qed.

Lemma prepare_history_no_previous_witness :
  let given := "previous-pages/OAuth-Sheriff/benchmarks" in
  let line := "No previous pages directory found at " +:+ show_path (Path given)
                +:+ ", skipping history preparation" in
  prepare_history prepare_args_ci (World fs_copy [])
    = (Return tt, World fs_copy ([] ++ [Stdout line])) ∧
  show_path (Path given) = given ∧ Py.contains given line = true.
Proof.
  destruct (prepare_history_no_previous prepare_args_ci (World fs_copy []) eq_refl)
    as [Hrun Hnormal].
  split; [exact Hrun|].
  apply (Hnormal ["previous-pages"; "OAuth-Sheriff"; "benchmarks"]).
  - discriminate.
  - repeat constructor.
  - left. reflexivity.
Defined.

(** C7 as stated fails for a given path that is not in normal form: with
    [--previous-pages-dir prev/] the line names [prev], and the given string
    [prev/] is nowhere in it. *)
Lemma prepare_history_trailing_slash :
  let given := Prepare.previous_pages_dir prepare_args_trailing_slash in
  let run := prepare_history prepare_args_trailing_slash (World ∅ []) in
  given = "prev/" ∧
  is_dir ∅ (Path given) = false ∧
  run.1 = Return tt ∧
  log run.2
    = [Stdout "No previous pages directory found at prev, skipping history preparation"] ∧
  Py.contains given
    "No previous pages directory found at prev, skipping history preparation" = false.
Proof. vm_compute. done. Qed.

(** ** Merging twice *)

Lemma copy_loop_skip_exists src dst names :
  ∀ acc w count w',
    for_fold (copy_body src dst true) acc names w = (Return count, w') →
    ∀ m, m ∈ names → is_Some (files w' !! child dst m).
Proof.
  induction names as [|h t IH]; intros acc w count w' Hrun m Hm.
  { by apply elem_of_nil in Hm. }
  cbn [for_fold] in Hrun. apply bind_inv_Return in Hrun as (a & w1 & Hbody & Hrest).
  apply elem_of_cons in Hm as [->|Hm]; [|by eapply IH].
  pose proof Hrest as Hfoot. apply copy_loop_footprint in Hfoot as (_ & Hsub & _).
  specialize (Hsub eq_refl).
  apply (copy_body_inv src dst true acc h) in Hbody
    as [_ [[-> [(_ & _ & Hex)|[? ?]]]|Hwrite]]; try done.
  - unfold exists_ in Hex. rewrite stat_child in Hex.
    destruct (files w !! child dst h) as [e|] eqn:He; [|done].
    exists e. by apply (lookup_weaken (files w)).
  - destruct Hwrite as (c & target & _ & Hnone & _ & Ht & _ & _ & Hw1).
    specialize (Hnone eq_refl).
    assert (target = child dst h) as ->.
    { rewrite Ht. destruct (is_dir (files w) (child dst h)) eqn:Hd; [|done].
      apply is_dir_child in Hd. congruence. }
    exists (File c). apply (lookup_weaken (files w1)); [|done].
    rewrite Hw1. apply lookup_insert_eq.
Qed.

Lemma copy_loop_all_skipped src dst names acc w :
  (∀ m, m ∈ names → is_Some (files w !! child dst m)) →
  for_fold (copy_body src dst true) acc names w = (Return acc, w).
Proof.
  induction names as [|h t IH]; intros Hall; [done|].
  cbn [for_fold]. unfold bind at 1. cbn beta zeta. unfold bind at 1, path_exists at 1.
  assert (exists_ (files w) (child dst h) = true) as ->.
  { unfold exists_. rewrite stat_child. destruct (Hall h) as [e ->]; [left|done]. }
  cbn [andb]. unfold ret at 1. apply IH. intros m Hm. apply Hall. by right.
Qed.

Lemma makedirs_noop p s lg :
  (∀ j, 0 < j ≤ length p → s !! take j p = Some Dir) →
  makedirs p (World s lg) = (Return tt, World s lg).
Proof.
  intros Hdirs. unfold makedirs. cbn [files log].
  by rewrite (makedirs_from_noop [] p s).
Qed.

(** A merge that returned leaves nothing for a second merge to do. *)
Lemma copy_skip_twice src dst w n w1 :
  _copy_json_files src dst true w = (Return n, w1) →
  ∀ lg, _copy_json_files src dst true (World (files w1) lg)
        = (Return 0, World (files w1) lg).
Proof.
  intros Hrun lg. rewrite copy_json_files_unfold in Hrun.
  destruct (makedirs dst w) as [[[]|e|x] wa] eqn:Hmk; try done.
  apply makedirs_inv in Hmk as [_ [(? & ? & _)|[_ Hmk]]]; [done|].
  apply makedirs_from_inr in Hmk as (_ & _ & Hdirs). simpl in Hdirs.
  pose proof Hrun as Hfoot.
  apply copy_loop_footprint in Hfoot as (_ & Hsub & Hfoot). specialize (Hsub eq_refl).
  rewrite copy_json_files_unfold, makedirs_noop.
  2:{ intros j Hj. apply (lookup_weaken (files wa)); [by apply Hdirs|done]. }
  cbn [files]. apply copy_loop_all_skipped. intros m Hm. cbn [files] in *.
  apply elem_of_glob_json_in in Hm as (Hd & Hj & Hsome).
  destruct (Hfoot (child src m)) as [Heq|(m' & c & Hm' & [Heq|Heq] & _)].
  - apply (copy_loop_skip_exists src dst _ 0 wa n w1 Hrun).
    apply elem_of_glob_json_in. rewrite <-Heq. split; [|done].
    unfold is_dir, stat in *. destruct src as [|x src]; [done|].
    apply bool_decide_eq_true in Hd. apply bool_decide_eq_true.
    destruct (Hfoot (x :: src)) as [<-|(? & ? & _ & _ & ? & _)]; [done|congruence].
  - apply child_inj in Heq as [-> ->].
    by apply (copy_loop_skip_exists _ _ _ 0 wa n w1 Hrun).
  - apply child_inj in Heq as [-> ->].
    by apply (copy_loop_skip_exists _ _ _ 0 wa n w1 Hrun).
Qed.

Local Abbreviation merge_body previous_dir :=
  (λ (_ : unit) (m : string * path),
     let name := m.1 in
     let results_dir := m.2 in
     let prev_history := child (child previous_dir name) "history" in
     do hd <- path_is_dir prev_history;
     if negb hd then ret tt
     else
       let history_dir := child results_dir "history" in
       do count <- _copy_json_files prev_history history_dir true;
       print ("Merged " +:+ pretty count +:+ " previous " +:+ name
                +:+ " history files")).

(** The merge of one module either does nothing (no previous history) or is
    one call of the copy primitive followed by one line of output. *)
Lemma merge_body_inv pd m w o w' :
  merge_body pd tt m w = (o, w') →
  (is_dir (files w) (child (child pd m.1) "history") = false ∧
   o = Return tt ∧ w' = w) ∨
  (is_dir (files w) (child (child pd m.1) "history") = true ∧
   ∃ oc wc,
     _copy_json_files (child (child pd m.1) "history") (child m.2 "history") true w
       = (oc, wc) ∧
     files w' = files wc ∧
     match oc with
     | Return count =>
         o = Return tt ∧
         log w' = log wc ++ [Stdout ("Merged " +:+ pretty count +:+ " previous "
                                       +:+ m.1 +:+ " history files")]
     | Raise e => o = Raise e ∧ w' = wc
     | SysExit c => o = SysExit c ∧ w' = wc
     end).
Proof.
  cbn beta zeta. unfold bind at 1, path_is_dir at 1.
  destruct (is_dir (files w) (child (child pd m.1) "history")) eqn:Hd; cbn [negb].
  2:{ unfold ret. intros [= <- <-]. by left. }
  unfold bind, print.
  destruct (_copy_json_files _ _ true w) as [[count|e|c] wc] eqn:Hc;
    intros [= <- <-]; right; (split; [done|]); eexists _, wc; (split; [done|]); done.
Qed.

Lemma merge_previous_unfold pd modules w :
  merge_previous pd modules w =
  match pd with
  | None => (Return tt, w)
  | Some previous_dir =>
      if is_dir (files w) previous_dir
      then for_fold (merge_body previous_dir) tt modules w
      else (Return tt, w)
  end.
Proof.
  unfold merge_previous. destruct pd as [previous_dir|]; [|done].
  unfold bind, path_is_dir. by destruct (is_dir (files w) previous_dir).
Qed.

(** ** Writing without removing *)

Lemma writes_within_refl P s : writes_within P s s.
Proof. intros p. by left. Qed.

Lemma writes_within_trans P s1 s2 s3 :
  writes_within P s1 s2 → writes_within P s2 s3 → writes_within P s1 s3.
Proof.
  intros H12 H23 p. destruct (H23 p) as [Heq|(HP & Hnd & Hsome)].
  - rewrite Heq. apply H12.
  - right. split; [done|]. split; [|done].
    destruct (H12 p) as [<-|(_ & ? & _)]; done.
Qed.

Lemma writes_within_weaken (P Q : path → Prop) s s' :
  (∀ p, P p → Q p) → writes_within P s s' → writes_within Q s s'.
Proof. intros HPQ H p. destruct (H p) as [?|(? & ? & ?)]; [by left|right; auto]. Qed.

Lemma writes_within_dir P s s' p :
  writes_within P s s' → s !! p = Some Dir → s' !! p = Some Dir.
Proof. intros H Hp. destruct (H p) as [->|(_ & ? & _)]; done. Qed.

Lemma writes_within_is_dir P s s' p :
  writes_within P s s' → is_dir s p = true → is_dir s' p = true.
Proof.
  unfold is_dir, stat. destruct p as [|x p]; [done|].
  rewrite !bool_decide_eq_true. apply writes_within_dir.
Qed.

Lemma writes_within_outside P s s' p :
  writes_within P s s' → ¬ P p → s' !! p = s !! p.
Proof. intros H Hp. destruct (H p) as [?|(? & _)]; done. Qed.

Lemma writes_within_is_dir_outside P s s' p :
  writes_within P s s' → ¬ P p → is_dir s' p = is_dir s p.
Proof.
  intros H Hp. unfold is_dir, stat. destruct p as [|x p]; [done|].
  by rewrite (writes_within_outside _ _ _ _ H Hp).
Qed.

Lemma subseteq_writes_within (P : path → Prop) (s s' : fs) :
  s ⊆ s' → (∀ p, s !! p = None → is_Some (s' !! p) → P p) → writes_within P s s'.
Proof.
  intros Hsub HP p. destruct (s !! p) as [e|] eqn:Hp.
  - left. by apply (lookup_weaken s).
  - destruct (s' !! p) as [e'|] eqn:Hp'; [|by left].
    right. split; [apply HP; eauto|]. split; [done|eauto].
Qed.

Lemma insert_writes_within (P : path → Prop) (s : fs) p e :
  P p → s !! p ≠ Some Dir → writes_within P s (<[p := e]> s).
Proof.
  intros HP Hnd q. destruct (decide (q = p)) as [->|Hne].
  - right. rewrite lookup_insert_eq. eauto.
  - left. by rewrite lookup_insert_ne.
Qed.

Lemma is_dir_lookup (s : fs) p : s !! p = Some Dir → is_dir s p = true.
Proof.
  unfold is_dir, stat. destruct p; [done|]. intros Hp. by apply bool_decide_eq_true.
Qed.

Lemma is_dir_lookup_or_root (s : fs) p :
  p = [] ∨ s !! p = Some Dir → is_dir s p = true.
Proof. intros [->|Hp]; [done|by apply is_dir_lookup]. Qed.

Lemma is_dir_take (s : fs) p j :
  (∀ i, 0 < i ≤ length p → s !! take i p = Some Dir) → is_dir s (take j p) = true.
Proof.
  intros Hdirs. destruct (decide (j = 0)) as [->|Hj0]; [by rewrite take_0|].
  destruct (decide (j ≤ length p)%nat) as [Hle|Hgt].
  - apply is_dir_lookup, Hdirs. lia.
  - rewrite take_ge by lia. destruct (decide (length p = 0)) as [Hl|Hl].
    + by apply nil_length_inv in Hl as ->.
    + rewrite <-(firstn_all p). apply is_dir_lookup, Hdirs. lia.
Qed.

Lemma makedirs_writes p w o w' :
  makedirs p w = (o, w') →
  log w' = log w ∧ files w ⊆ files w' ∧
  writes_within (λ q, q `prefix_of` p) (files w) (files w') ∧
  (o = Return tt → ∀ j, is_dir (files w') (take j p) = true).
Proof.
  intros Hmk. apply makedirs_inv in Hmk as [Hlog [(e & -> & -> & _)|[-> Hmk]]].
  { split; [done|]. split; [done|]. split; [apply writes_within_refl|done]. }
  apply makedirs_from_inr in Hmk as (Hsub & Hframe & Hdirs). simpl in Hframe, Hdirs.
  split; [done|]. split; [done|]. split.
  - intros q. destruct (Hframe q) as [?|(Hn & Hd & j & _ & ->)]; [by left|right].
    split; [apply prefix_take|]. split; [congruence|]. rewrite Hd. eauto.
  - intros _ j. by apply is_dir_take.
Qed.

Lemma prefix_of_child (q d : path) n :
  q `prefix_of` child d n → q = child d n ∨ q `prefix_of` d.
Proof.
  intros [k Hk]. destruct k as [|x k _] using rev_ind.
  - left. by rewrite app_nil_r in Hk.
  - right. unfold child in Hk. rewrite app_assoc in Hk.
    apply app_inj_tail in Hk as [-> _]. by apply prefix_app_r.
Qed.

Lemma prefix_child_l (d : path) n : d `prefix_of` child d n.
Proof. by apply prefix_app_r. Qed.

Lemma copy_json_files_writes src dst skip w o w' :
  _copy_json_files src dst skip w = (o, w') →
  log w' = log w ∧
  writes_within
    (λ p, p `prefix_of` dst ∨
          ∃ m, Py.endswith ".json" m = true ∧
               (p = child dst m ∨ p = child (child dst m) m))
    (files w) (files w').
Proof.
  intros Hrun. apply copy_json_files_footprint in Hrun as (Hlog & _ & Hfoot).
  split; [done|]. intros p.
  destruct (Hfoot p) as [?|[(Hn & Hd & j & _ & ->)|(m & c & Hm & Hp & Hc & Hnd)]].
  - by left.
  - right. split; [left; apply prefix_take|]. split; [congruence|]. rewrite Hd. eauto.
  - right. split; [right; eauto|]. split; [done|]. rewrite Hc. eauto.
Qed.

Lemma merge_single_twice previous_dir name results_dir w w1 :
  merge_previous previous_dir [(name, results_dir)] w = (Return tt, w1) →
  ∃ w2,
    merge_previous previous_dir [(name, results_dir)] w1 = (Return tt, w2) ∧
    files w2 = files w1.
Proof.
  rewrite !merge_previous_unfold. destruct previous_dir as [pd|]; [|by eauto].
  destruct (is_dir (files w) pd) eqn:Hpd.
  2:{ intros [= <-]. rewrite Hpd. eauto. }
  cbn [for_fold]. intros Hrun.
  apply bind_inv_Return in Hrun as ([] & wm & Hbody & Hret).
  unfold ret in Hret. injection Hret as <-.
  apply merge_body_inv in Hbody as [(Hhd & _ & ->)|(Hhd & oc & wc & Hcopy & Hfiles & Hoc)].
  - rewrite Hpd. exists w. split; [|done].
    unfold bind at 1. cbn beta zeta. unfold bind at 1, path_is_dir at 1.
    cbn [fst snd] in *. by rewrite Hhd.
  - cbn [fst snd] in *. destruct oc as [count|e|c]; [|by destruct Hoc..].
    destruct Hoc as [_ Hlog].
    pose proof Hcopy as Hfoot.
    apply copy_json_files_footprint in Hfoot as (_ & Hsub & _). specialize (Hsub eq_refl).
    rewrite <-Hfiles in Hsub.
    rewrite (is_dir_weaken _ _ _ Hsub Hpd).
    destruct wm as [sm lm]. cbn [files log] in *. subst sm.
    eexists. unfold bind at 1. cbn beta zeta. unfold bind at 1, path_is_dir at 1.
    cbn [fst snd files]. rewrite (is_dir_weaken _ _ _ Hsub Hhd). cbn [negb].
    unfold bind at 1.
    rewrite (copy_skip_twice _ _ _ _ _ Hcopy lm).
    unfold print, ret. cbn [files log]. split; [reflexivity|done].
Qed.

(** A copy with skip-existing that returned has nothing left to do in any
    later state that still holds what it left, as long as the source has no
    new names. *)
Lemma copy_skip_again src dst w n w1 s lg :
  _copy_json_files src dst true w = (Return n, w1) →
  files w1 ⊆ s →
  (∀ m, m ∈ glob_json_in s src → m ∈ glob_json_in (files w) src) →
  _copy_json_files src dst true (World s lg) = (Return 0, World s lg).
Proof.
  intros Hrun Hsub Hnames. rewrite copy_json_files_unfold in Hrun.
  destruct (makedirs dst w) as [[[]|e|x] wa] eqn:Hmk; try done.
  apply makedirs_inv in Hmk as [_ [(? & ? & _)|[_ Hmk]]]; [done|].
  apply makedirs_from_inr in Hmk as (Hsuba & _ & Hdirs). simpl in Hdirs.
  pose proof Hrun as Hfoot.
  apply copy_loop_footprint in Hfoot as (_ & Hsub1 & _). specialize (Hsub1 eq_refl).
  rewrite copy_json_files_unfold, makedirs_noop.
  2:{ intros j Hj. apply (lookup_weaken (files w1)); [|done].
      apply (lookup_weaken (files wa)); [by apply Hdirs|done]. }
  cbn [files]. apply copy_loop_all_skipped. intros m Hm. cbn [files].
  apply Hnames in Hm. apply elem_of_glob_json_in in Hm as (Hd & Hj & [e He]).
  assert (m ∈ glob_json_in (files wa) src) as Hma.
  { apply elem_of_glob_json_in. split; [by eapply is_dir_weaken|]. split; [done|].
    exists e. by apply (lookup_weaken (files w)). }
  destruct (copy_loop_skip_exists src dst _ 0 wa n w1 Hrun m Hma) as [e' He'].
  exists e'. by apply (lookup_weaken (files w1)).
Qed.

Lemma merge_body_snapshot pd m w o w' :
  apart pd (child m.2 "history") →
  merge_body pd tt m w = (o, w') →
  files w ⊆ files w' ∧ ∀ p, pd `prefix_of` p → files w' !! p = files w !! p.
Proof.
  intros [Hpd Hdp] Hbody.
  apply merge_body_inv in Hbody as [(_ & _ & ->)|(_ & oc & wc & Hc & Hf & _)]; [done|].
  rewrite Hf. pose proof Hc as Hc'.
  apply copy_json_files_footprint in Hc' as (_ & Hsub & _).
  apply copy_json_files_writes in Hc as [_ Hw].
  split; [by apply Hsub|]. intros p Hp.
  apply (writes_within_outside _ _ _ _ Hw).
  intros [Hin|(n & _ & [-> | ->])].
  - apply Hpd. by etrans.
  - destruct (prefix_weak_total _ _ _ Hp (prefix_child_l _ n)); done.
  - assert (child m.2 "history" `prefix_of` child (child (child m.2 "history") n) n) as Hd.
    { etrans; apply prefix_child_l. }
    destruct (prefix_weak_total _ _ _ Hp Hd); done.
Qed.

Lemma merge_loop_snapshot pd modules w o w' :
  (∀ m, m ∈ modules → apart pd (child m.2 "history")) →
  for_fold (merge_body pd) tt modules w = (o, w') →
  files w ⊆ files w' ∧ ∀ p, pd `prefix_of` p → files w' !! p = files w !! p.
Proof.
  intros Hapart.
  apply (for_fold_rel (λ w w',
    files w ⊆ files w' ∧ ∀ p, pd `prefix_of` p → files w' !! p = files w !! p)).
  - done.
  - intros w1 w2 w3 [Hs12 H12] [Hs23 H23]. split; [by transitivity (files w2)|].
    intros p Hp. rewrite H23, H12; done.
  - intros [] m w0 o0 w0' Hm. apply merge_body_snapshot. by apply Hapart.
Qed.

Lemma glob_json_in_below s s' d :
  (∀ p, d `prefix_of` p → s' !! p = s !! p) →
  is_dir s' d = is_dir s d ∧ ∀ n, n ∈ glob_json_in s' d ↔ n ∈ glob_json_in s d.
Proof.
  intros Heq.
  assert (is_dir s' d = is_dir s d) as Hd.
  { unfold is_dir, stat. destruct d as [|x d]; [done|]. by rewrite Heq. }
  split; [done|]. intros n. rewrite !elem_of_glob_json_in, Hd.
  by rewrite (Heq (child d n)) by apply prefix_child_l.
Qed.

Lemma merge_loop_twice pd modules :
  (∀ m, m ∈ modules → apart pd (child m.2 "history")) →
  ∀ w w1, for_fold (merge_body pd) tt modules w = (Return tt, w1) →
  ∀ s lg, files w1 ⊆ s →
    (∀ p, pd `prefix_of` p → s !! p = files w !! p) →
    ∃ lg', for_fold (merge_body pd) tt modules (World s lg) = (Return tt, World s lg').
Proof.
  induction modules as [|m modules IH]; intros Hapart w w1 Hrun s lg Hsub Hsnap.
  { by exists lg. }
  cbn [for_fold] in Hrun. apply bind_inv_Return in Hrun as ([] & wm & Hbody & Hrest).
  destruct (merge_body_snapshot pd m w _ wm (Hapart m ltac:(left)) Hbody)
    as [Hsubm Hsnapm].
  assert (∀ m', m' ∈ modules → apart pd (child m'.2 "history")) as Hapart'.
  { intros m' Hm'. apply Hapart. by right. }
  destruct (merge_loop_snapshot pd modules wm _ w1 Hapart' Hrest) as [Hsub1 _].
  assert (child (child pd m.1) "history" `prefix_of` child (child pd m.1) "history")
    as Hrefl by done.
  assert (∀ p, child (child pd m.1) "history" `prefix_of` p → s !! p = files w !! p)
    as Hbelow.
  { intros p Hp. apply Hsnap. etrans; [|exact Hp]. etrans; apply prefix_child_l. }
  destruct (glob_json_in_below _ _ _ Hbelow) as [Hd Hglob].
  assert (∀ p, pd `prefix_of` p → s !! p = files wm !! p) as Hsnap'.
  { intros p Hp. rewrite Hsnapm by done. by apply Hsnap. }
  cbn [for_fold]. unfold bind at 1. cbn beta zeta.
  unfold bind at 1, path_is_dir at 1. cbn [files]. rewrite Hd.
  apply merge_body_inv in Hbody as [(Hhd & _ & ->)|(Hhd & oc & wc & Hc & Hf & Ho)].
  - rewrite Hhd. cbn [negb]. unfold ret at 1. by apply (IH Hapart' w w1).
  - rewrite Hhd. cbn [negb]. destruct oc as [count|e|c]; [|by destruct Ho..].
    unfold bind at 1.
    rewrite (copy_skip_again _ _ _ _ _ s lg Hc).
    + unfold print at 1. cbn [files log]. by apply (IH Hapart' wm w1).
    + rewrite <-Hf. by transitivity (files w1).
    + intros n Hn. by apply Hglob.
Qed.

(** C3 (amended): when the merge step (the copy of the previous history of
    each configured category into its [<results-dir>/history], skipping
    existing files) has returned, a second run of it on the same arguments
    returns too and leaves the whole filesystem, and so every history folder,
    exactly as the first run left it: for a single category whatever the
    paths, and for any list of categories whose history directories are
    apart from the snapshot (neither inside it nor around it). *)
Theorem merge_previous_twice
    (previous_dir : option path) (modules : list (string * path)) (w w1 : world) :
  ((∃ m, modules = [m]) ∨
   (∀ pd m, previous_dir = Some pd → m ∈ modules → apart pd (child m.2 "history"))) →
  merge_previous previous_dir modules w = (Return tt, w1) →
  ∃ w2,
    merge_previous previous_dir modules w1 = (Return tt, w2) ∧
    files w2 = files w1.
Proof.
  intros [[[name results_dir] ->]|Hapart]; [apply merge_single_twice|].
  rewrite !merge_previous_unfold. destruct previous_dir as [pd|]; [|by eauto].
  destruct (is_dir (files w) pd) eqn:Hpd.
  2:{ intros [= <-]. rewrite Hpd. eauto. }
  intros Hrun.
  assert (∀ m, m ∈ modules → apart pd (child m.2 "history")) as Hapart'.
  { intros m Hm. by apply Hapart. }
  destruct (merge_loop_snapshot pd modules w _ w1 Hapart' Hrun) as [Hsub Hsnap].
  rewrite (is_dir_weaken _ _ _ Hsub Hpd).
  destruct (merge_loop_twice pd modules Hapart' w w1 Hrun (files w1) (log w1))
    as [lg' Hrun2]; [done|done|].
  destruct w1 as [s1 l1]. cbn [files log] in *.
  exists (World s1 lg'). by rewrite Hrun2.
Qed.

Lemma merge_previous_twice_witness :
  let modules := modules_of assemble_args_both in
  let pd := previous_dir_of assemble_args_both in
  let w1 := (merge_previous pd modules (World fs_merge_both [])).2 in
  ∃ w2,
    merge_previous pd modules w1 = (Return tt, w2) ∧
    files w2 = files w1.
Proof.
  apply (merge_previous_twice (previous_dir_of assemble_args_both)
           (modules_of assemble_args_both) (World fs_merge_both [])).
  - right. intros pd m [= <-] Hm. vm_compute in Hm.
    apply elem_of_cons in Hm as [->|Hm];
      [|apply elem_of_cons in Hm as [->|Hm]; [|by apply elem_of_nil in Hm]].
    + split; vm_compute; intros [k Hk]; discriminate Hk.
    + split; vm_compute; intros [k Hk]; discriminate Hk.
  - vm_compute. reflexivity.
Defined.

(** C3 as stated fails when a history directory lies inside the snapshot:
    with the integration results given as [p/micro], the first merge copies
    the previous integration history into the previous micro history, and a
    second merge then finds the new name [b.json] there and copies it into the
    micro history, which the first run had left without it. *)
Lemma merge_previous_aliased :
  let modules := modules_of assemble_args_aliased in
  let pd := previous_dir_of assemble_args_aliased in
  let run1 := merge_previous pd modules (World fs_aliased []) in
  let run2 := merge_previous pd modules run1.2 in
  modules = [("micro", ["r"]); ("integration", ["p"; "micro"])] ∧
  pd = Some ["p"] ∧
  run1.1 = Return tt ∧ run2.1 = Return tt ∧
  files run1.2 !! ["r"; "history"; "a.json"] = Some (File "micro-a") ∧
  files run1.2 !! ["r"; "history"; "b.json"] = None ∧
  files run2.2 !! ["r"; "history"; "b.json"] = Some (File "integration-b").
Proof. vm_compute. done. Qed.

(** ** Exits *)

Lemma never_exits_bind {A B} (m : M A) (k : A → M B) :
  never_exits m → (∀ a, never_exits (k a)) → never_exits (bind m k).
Proof.
  intros Hm Hk w c w'. unfold bind.
  destruct (m w) as [[a|e|c'] w1] eqn:Hmw; [apply Hk|done|].
  by apply Hm in Hmw.
Qed.

Lemma never_exits_for_fold {A B} (body : B → A → M B) l :
  (∀ acc x, never_exits (body acc x)) → ∀ acc, never_exits (for_fold body acc l).
Proof.
  intros Hbody. induction l as [|x l IH]; intros acc; simpl; [done|].
  apply never_exits_bind; auto.
Qed.

Lemma never_exits_if {A} (b : bool) (m1 m2 : M A) :
  never_exits m1 → never_exits m2 → never_exits (if b then m1 else m2).
Proof. by destruct b. Qed.

Lemma never_exits_ret {A} (a : A) : never_exits (ret a).
Proof. done. Qed.

Lemma never_exits_print line : never_exits (print line).
Proof. done. Qed.

Lemma never_exits_path_is_dir p : never_exits (path_is_dir p).
Proof. done. Qed.

Lemma never_exits_path_is_file p : never_exits (path_is_file p).
Proof. done. Qed.

Lemma never_exits_path_exists p : never_exits (path_exists p).
Proof. done. Qed.

Lemma never_exits_glob_json p : never_exits (glob_json p).
Proof. done. Qed.

Lemma never_exits_makedirs p : never_exits (makedirs p).
Proof. intros w c w'. unfold makedirs. by destruct (makedirs_from _ _ _). Qed.

Lemma never_exits_mkdir_exist_ok p : never_exits (mkdir_exist_ok p).
Proof.
  intros w c w'. unfold mkdir_exist_ok.
  destruct (stat (files w) p) as [[]|]; [done..|].
  by destruct (stat (files w) (parent p)) as [[]|].
Qed.

Lemma never_exits_write_file p x : never_exits (write_file p x).
Proof.
  intros w c w'. unfold write_file.
  by destruct (stat (files w) p) as [[]|];
    destruct (stat (files w) (parent p)) as [[]|].
Qed.

Lemma never_exits_copy2 src dst : never_exits (copy2 src dst).
Proof.
  intros w c w'. unfold copy2. destruct (_ && _); [done|].
  destruct (stat (files w) src) as [[x|]|]; [|done..]. apply never_exits_write_file.
Qed.

Lemma never_exits_unlink p : never_exits (unlink p).
Proof. intros w c w'. unfold unlink. by destruct (stat (files w) p) as [[]|]. Qed.

Lemma never_exits_scandir p : never_exits (scandir p).
Proof. intros w c w'. unfold scandir. by destruct (stat (files w) p) as [[]|]. Qed.

Lemma never_exits_copytree fuel : ∀ src dst, never_exits (copytree fuel src dst).
Proof.
  induction fuel as [|fuel IH]; intros src dst; simpl; [done|].
  apply never_exits_bind; [apply never_exits_scandir|]. intros names.
  apply never_exits_bind; [apply never_exits_makedirs|]. intros _.
  apply never_exits_for_fold. intros _ n.
  apply never_exits_bind; [apply never_exits_path_is_dir|]. intros d.
  apply never_exits_if; [apply IH|apply never_exits_copy2].
Qed.

Lemma never_exits_copy_json_files src dst skip :
  never_exits (_copy_json_files src dst skip).
Proof.
  unfold _copy_json_files.
  apply never_exits_bind; [apply never_exits_makedirs|]. intros _.
  apply never_exits_bind; [apply never_exits_glob_json|]. intros names.
  apply never_exits_for_fold. intros copied n. cbn zeta.
  apply never_exits_bind; [apply never_exits_path_exists|]. intros there.
  apply never_exits_if; [apply never_exits_ret|].
  apply never_exits_bind; [apply never_exits_copy2|]. intros _. apply never_exits_ret.
Qed.

Lemma never_exits_enforce_retention d N : never_exits (_enforce_retention d N).
Proof.
  unfold _enforce_retention.
  apply never_exits_bind; [apply never_exits_path_is_dir|]. intros b.
  apply never_exits_if; [apply never_exits_ret|].
  apply never_exits_bind; [apply never_exits_glob_json|]. intros names.
  apply never_exits_for_fold. intros removed n.
  apply never_exits_bind; [apply never_exits_unlink|]. intros _. apply never_exits_ret.
Qed.

(** ** What the tree copy touches *)

Lemma around_child dst n q : around (child dst n) q → around dst q.
Proof.
  unfold around. intros [Hq|Hq].
  - apply prefix_of_child in Hq as [->|?]; [right; apply prefix_child_l|by left].
  - right. etrans; [apply prefix_child_l|done].
Qed.

Lemma copy2_writes src d n w o w' :
  copy2 src (child d n) w = (o, w') →
  log w' = log w ∧
  writes_within (λ q, q = child d n ∨ q = child (child d n) (basename src))
    (files w) (files w').
Proof.
  intros Hc. apply copy2_inv in Hc as [Hlog [[_ ->]|Hwrite]].
  { split; [done|apply writes_within_refl]. }
  destruct Hwrite as (c & target & _ & _ & Ht & _ & Hnd & ->). split; [done|].
  apply insert_writes_within; [|done]. rewrite Ht. destruct (is_dir _ _); auto.
Qed.

Lemma scandir_inv d w o w' :
  scandir d w = (o, w') →
  w' = w ∧ ((∃ e, o = Raise e) ∨ (o = Return (listdir (files w) d) ∧ is_dir (files w) d = true)).
Proof.
  unfold scandir, is_dir. destruct (stat (files w) d) as [[c|]|]; intros [= <- <-];
    (split; [done|]); eauto.
Qed.

Lemma copytree_writes fuel :
  ∀ src dst w o w',
    copytree fuel src dst w = (o, w') →
    log w' = log w ∧ writes_within (around dst) (files w) (files w').
Proof.
  induction fuel as [|fuel IH]; intros src dst w o w'; simpl.
  { unfold raise. intros [= <- <-]. split; [done|apply writes_within_refl]. }
  unfold bind at 1. destruct (scandir src w) as [o1 w1] eqn:Hs.
  apply scandir_inv in Hs as [-> Ho1].
  destruct o1 as [names|e|c]; [|intros [= <- <-]; split; [done|apply writes_within_refl]..].
  unfold bind at 1. destruct (makedirs dst w) as [o2 w2] eqn:Hmk.
  apply makedirs_writes in Hmk as (Hlog2 & _ & Hw2 & _).
  assert (writes_within (around dst) (files w) (files w2)) as Hw2'.
  { eapply writes_within_weaken; [|done]. intros q Hq. by left. }
  destruct o2 as [[]|e|c]; [|intros [= <- <-]; done..].
  intros Hloop. unfold for_each in Hloop.
  apply (for_fold_rel (λ w w',
    log w' = log w ∧ writes_within (around dst) (files w) (files w'))) in Hloop.
  - destruct Hloop as [Hlog Hw]. split; [congruence|]. by eapply writes_within_trans.
  - intros w0. split; [done|apply writes_within_refl].
  - intros wa wb wc [Hl1 Hw1] [Hl3 Hw3]. split; [congruence|].
    by eapply writes_within_trans.
  - intros [] n w0 o0 w0' _. unfold bind at 1, path_is_dir at 1.
    destruct (is_dir (files w0) (child src n)).
    + intros Hrec. apply IH in Hrec as [Hl Hw]. split; [done|].
      eapply writes_within_weaken; [|done]. apply around_child.
    + intros Hc. apply copy2_writes in Hc as [Hl Hw]. split; [done|].
      eapply writes_within_weaken; [|done]. intros q [-> | ->]; right.
      * apply prefix_child_l.
      * etrans; apply prefix_child_l.
Qed.

Lemma mkdir_exist_ok_writes p w o w' :
  mkdir_exist_ok p w = (o, w') →
  log w' = log w ∧ writes_within (λ q, q = p) (files w) (files w').
Proof.
  unfold mkdir_exist_ok. destruct (stat (files w) p) as [[c|]|] eqn:Hp.
  - intros [= <- <-]. split; [done|apply writes_within_refl].
  - intros [= <- <-]. split; [done|apply writes_within_refl].
  - destruct (stat (files w) (parent p)) as [[c|]|]; intros [= <- <-];
      (split; [done|]); try apply writes_within_refl.
    cbn [files]. apply insert_writes_within; [done|].
    unfold stat in Hp. destruct p as [|x p]; [done|]. by rewrite Hp.
Qed.

Lemma write_file_writes p c w o w' :
  write_file p c w = (o, w') →
  log w' = log w ∧ writes_within (λ q, q = p) (files w) (files w').
Proof.
  unfold write_file. destruct (stat (files w) p) as [[c0|]|] eqn:Hp.
  - destruct (stat (files w) (parent p)) as [[c1|]|]; intros [= <- <-];
      (split; [done|]); try apply writes_within_refl.
    cbn [files]. apply insert_writes_within; [done|].
    unfold stat in Hp. destruct p as [|x p]; [done|]. by rewrite Hp.
  - intros [= <- <-]. split; [done|apply writes_within_refl].
  - destruct (stat (files w) (parent p)) as [[c1|]|]; intros [= <- <-];
      (split; [done|]); try apply writes_within_refl.
    cbn [files]. apply insert_writes_within; [done|].
    unfold stat in Hp. destruct p as [|x p]; [done|]. by rewrite Hp.
Qed.

Lemma basename_child d n : basename (child d n) = n.
Proof. unfold basename, child. by rewrite last_snoc. Qed.

Lemma promote_badges_writes name results badges w o w' :
  promote_badges name results badges w = (o, w') →
  log w' = log w ∧ writes_within (λ q, badges `prefix_of` q) (files w) (files w').
Proof.
  unfold promote_badges. cbn zeta. unfold bind at 1, path_is_dir at 1.
  destruct (if is_dir (files w) (child results "badges")
            then dict_get name _BADGE_MAPPING else None) as [mapping|].
  2:{ unfold ret. intros [= <- <-]. split; [done|apply writes_within_refl]. }
  unfold for_each.
  apply (for_fold_rel (λ w w',
    log w' = log w ∧ writes_within (λ q, badges `prefix_of` q) (files w) (files w'))).
  - intros w0. split; [done|apply writes_within_refl].
  - intros w1 w2 w3 [Hl12 H12] [Hl23 H23]. split; [congruence|].
    by eapply writes_within_trans.
  - intros [] sd w0 o0 w0' _. cbn zeta. unfold bind at 1, path_is_file at 1.
    destruct (is_file (files w0) (child (child results "badges") sd.1)).
    + intros Hc. apply copy2_writes in Hc as [Hlog Hw]. split; [done|].
      eapply writes_within_weaken; [|exact Hw].
      intros q [-> | ->]; [apply prefix_child_l|]. etrans; apply prefix_child_l.
    + unfold ret. intros [= <- <-]. split; [done|apply writes_within_refl].
Qed.

Lemma enforce_retention_unfold d N w :
  _enforce_retention d N w =
  if is_dir (files w) d
  then for_fold (λ removed name, unlink (child d name) ;; ret (S removed)) 0
         (Py.slice_from N (Py.sorted_reverse (glob_json_in (files w) d))) w
  else (Return 0, w).
Proof.
  unfold _enforce_retention, bind, path_is_dir, glob_json.
  by destruct (is_dir (files w) d).
Qed.

(** ** Programs that do not read their output *)

Lemma log_blind_ret {A} (a : A) : log_blind (ret a).
Proof. by intros s lg lg'. Qed.

Lemma log_blind_bind {A B} (m : M A) (k : A → M B) :
  log_blind m → (∀ a, log_blind (k a)) → log_blind (bind m k).
Proof.
  intros Hm Hk s lg lg'. unfold bind. destruct (Hm s lg lg') as [Ho Hf].
  destruct (m (World s lg)) as [o1 [s1 l1]], (m (World s lg')) as [o2 [s2 l2]].
  cbn [fst snd files] in Ho, Hf. subst o2 s2.
  destruct o1 as [a|e|c]; [apply Hk|done|done].
Qed.

Lemma log_blind_if {A} (b : bool) (m1 m2 : M A) :
  log_blind m1 → log_blind m2 → log_blind (if b then m1 else m2).
Proof. by destruct b. Qed.

Lemma log_blind_for_fold {A B} (body : B → A → M B) l :
  (∀ acc x, log_blind (body acc x)) → ∀ acc, log_blind (for_fold body acc l).
Proof.
  intros Hbody. induction l as [|x l IH]; intros acc; cbn [for_fold].
  - apply log_blind_ret.
  - apply log_blind_bind; [apply Hbody|done].
Qed.

Lemma log_blind_print line : log_blind (print line).
Proof. by intros s lg lg'. Qed.

Lemma log_blind_path_is_dir p : log_blind (path_is_dir p).
Proof. by intros s lg lg'. Qed.

Lemma log_blind_path_is_file p : log_blind (path_is_file p).
Proof. by intros s lg lg'. Qed.

Lemma log_blind_path_exists p : log_blind (path_exists p).
Proof. by intros s lg lg'. Qed.

Lemma log_blind_glob_json p : log_blind (glob_json p).
Proof. by intros s lg lg'. Qed.

Lemma log_blind_makedirs p : log_blind (makedirs p).
Proof.
  intros s lg lg'. unfold makedirs. cbn [files].
  by destruct (makedirs_from [] p s).
Qed.

Lemma log_blind_mkdir_exist_ok p : log_blind (mkdir_exist_ok p).
Proof.
  intros s lg lg'. unfold mkdir_exist_ok. cbn [files].
  by destruct (stat s p) as [[]|]; destruct (stat s (parent p)) as [[]|].
Qed.

Lemma log_blind_write_file p x : log_blind (write_file p x).
Proof.
  intros s lg lg'. unfold write_file. cbn [files].
  by destruct (stat s p) as [[]|]; destruct (stat s (parent p)) as [[]|].
Qed.

Lemma log_blind_copy2 src dst : log_blind (copy2 src dst).
Proof.
  intros s lg lg'. unfold copy2. cbn [files].
  destruct (exists_ s src && bool_decide (src = _)); [done|].
  destruct (stat s src) as [[c|]|]; [|done..]. apply log_blind_write_file.
Qed.

Lemma log_blind_unlink p : log_blind (unlink p).
Proof.
  intros s lg lg'. unfold unlink. cbn [files]. by destruct (stat s p) as [[]|].
Qed.

Lemma log_blind_scandir p : log_blind (scandir p).
Proof.
  intros s lg lg'. unfold scandir. cbn [files]. by destruct (stat s p) as [[]|].
Qed.

Lemma log_blind_copytree fuel : ∀ src dst, log_blind (copytree fuel src dst).
Proof.
  induction fuel as [|fuel IH]; intros src dst; cbn [copytree].
  - by intros s lg lg'.
  - apply log_blind_bind; [apply log_blind_scandir|]. intros names.
    apply log_blind_bind; [apply log_blind_makedirs|]. intros _.
    apply log_blind_for_fold. intros _ n.
    apply log_blind_bind; [apply log_blind_path_is_dir|]. intros d.
    apply log_blind_if; [apply IH|apply log_blind_copy2].
Qed.

Lemma log_blind_copy_json_files src dst skip : log_blind (_copy_json_files src dst skip).
Proof.
  unfold _copy_json_files.
  apply log_blind_bind; [apply log_blind_makedirs|]. intros _.
  apply log_blind_bind; [apply log_blind_glob_json|]. intros names.
  apply log_blind_for_fold. intros copied n. cbn zeta.
  apply log_blind_bind; [apply log_blind_path_exists|]. intros there.
  apply log_blind_if; [apply log_blind_ret|].
  apply log_blind_bind; [apply log_blind_copy2|]. intros _. apply log_blind_ret.
Qed.

Lemma log_blind_enforce_retention d N : log_blind (_enforce_retention d N).
Proof.
  unfold _enforce_retention.
  apply log_blind_bind; [apply log_blind_path_is_dir|]. intros b.
  apply log_blind_if; [apply log_blind_ret|].
  apply log_blind_bind; [apply log_blind_glob_json|]. intros names. cbn zeta.
  apply log_blind_for_fold. intros removed n.
  apply log_blind_bind; [apply log_blind_unlink|]. intros _. apply log_blind_ret.
Qed.

Lemma log_blind_promote_badges name results badges :
  log_blind (promote_badges name results badges).
Proof.
  unfold promote_badges. cbn zeta.
  apply log_blind_bind; [apply log_blind_path_is_dir|]. intros bd.
  destruct (if bd then dict_get name _BADGE_MAPPING else None) as [mapping|];
    [|apply log_blind_ret].
  apply log_blind_for_fold. intros _ sd. cbn zeta.
  apply log_blind_bind; [apply log_blind_path_is_file|]. intros f.
  apply log_blind_if; [apply log_blind_copy2|apply log_blind_ret].
Qed.

(** Two worlds with the same filesystem: the program ends the same way in
    both, with the same filesystem. *)
Lemma log_blind_same_files {A} (m : M A) w w' :
  log_blind m → files w = files w' →
  (m w).1 = (m w').1 ∧ files (m w).2 = files (m w').2.
Proof.
  intros Hm Hf. destruct w as [s lg], w' as [s' lg']. cbn [files] in Hf. subst s'.
  apply Hm.
Qed.

(** ** The assemble command *)

Section AssembleProperties.

Variable json_str : string → string.
Variable recursion_limit : nat.

Local Abbreviation retain_body max_history :=
  (λ (_ : unit) (m : string * path),
     let name := m.1 in
     let results_dir := m.2 in
     do removed <- _enforce_retention (child results_dir "history") max_history;
     if bool_decide (removed = 0) then ret tt
     else print ("Removed " +:+ pretty removed +:+ " old " +:+ name
                   +:+ " history files (retention: " +:+ pretty max_history +:+ ")")).

Local Abbreviation combine_body output_dir :=
  (λ (_ : unit) (m : string * path),
     let name := m.1 in
     let results_dir := m.2 in
     do d <- path_is_dir results_dir;
     if negb d then print (not_found_warning name results_dir)
     else
       copytree recursion_limit results_dir (child output_dir name) ;;
       print ("Copied " +:+ name +:+ " benchmark artifacts to "
                +:+ show_path (child output_dir name)) ;;
       promote_badges name results_dir (child output_dir "badges")).

Local Abbreviation badge_body module_badges badges_dir :=
  (λ (_ : unit) (sd : string * string),
     let src := child module_badges sd.1 in
     do f <- path_is_file src;
     if f then copy2 src (child badges_dir sd.2) else ret tt).

Local Abbreviation summary_body output_dir :=
  (λ (_ : unit) (name : string),
     do d <- path_is_dir (child output_dir name);
     print (if d then "  " +:+ name +:+ "/ " else "  " +:+ name)).

Lemma assemble_unfold timestamp args w :
  assemble json_str recursion_limit timestamp args w =
  match modules_of args with
  | [] => (SysExit 1, World (files w) (log w ++ [Stderr usage_error]))
  | modules =>
      (merge_previous (previous_dir_of args) modules ;;
       retain (Assemble.max_history args) modules ;;
       combine recursion_limit (Path (Assemble.output_dir args)) modules ;;
       write_metadata json_str (Path (Assemble.output_dir args)) timestamp
         (Assemble.commit_sha args) ;;
       print_summary (Path (Assemble.output_dir args))) w
  end.
Proof. unfold assemble. by destruct (modules_of args). Qed.

Lemma never_exits_merge_previous pd modules : never_exits (merge_previous pd modules).
Proof.
  unfold merge_previous. destruct pd as [pd|]; [|apply never_exits_ret].
  apply never_exits_bind; [apply never_exits_path_is_dir|]. intros d.
  apply never_exits_if; [apply never_exits_ret|].
  apply never_exits_for_fold. intros _ m. cbn zeta.
  apply never_exits_bind; [apply never_exits_path_is_dir|]. intros hd.
  apply never_exits_if; [apply never_exits_ret|].
  apply never_exits_bind; [apply never_exits_copy_json_files|]. intros count.
  apply never_exits_print.
Qed.

Lemma never_exits_retain N modules : never_exits (retain N modules).
Proof.
  unfold retain. apply never_exits_for_fold. intros _ m. cbn zeta.
  apply never_exits_bind; [apply never_exits_enforce_retention|]. intros removed.
  apply never_exits_if; [apply never_exits_ret|apply never_exits_print].
Qed.

Lemma never_exits_promote_badges name results badges :
  never_exits (promote_badges name results badges).
Proof.
  unfold promote_badges. cbn zeta.
  apply never_exits_bind; [apply never_exits_path_is_dir|]. intros bd.
  destruct (if bd then dict_get name _BADGE_MAPPING else None) as [mapping|];
    [|apply never_exits_ret].
  apply never_exits_for_fold. intros _ sd. cbn zeta.
  apply never_exits_bind; [apply never_exits_path_is_file|]. intros f.
  apply never_exits_if; [apply never_exits_copy2|apply never_exits_ret].
Qed.

Lemma never_exits_combine out modules : never_exits (combine recursion_limit out modules).
Proof.
  unfold combine.
  apply never_exits_bind; [apply never_exits_makedirs|]. intros _. cbn zeta.
  apply never_exits_bind; [apply never_exits_mkdir_exist_ok|]. intros _.
  apply never_exits_for_fold. intros _ m. cbn zeta.
  apply never_exits_bind; [apply never_exits_path_is_dir|]. intros d.
  apply never_exits_if; [apply never_exits_print|].
  apply never_exits_bind; [apply never_exits_copytree|]. intros _.
  apply never_exits_bind; [apply never_exits_print|]. intros _.
  apply never_exits_promote_badges.
Qed.

Lemma never_exits_print_summary out : never_exits (print_summary out).
Proof.
  unfold print_summary.
  apply never_exits_bind; [apply never_exits_print|]. intros _.
  apply never_exits_bind; [apply never_exits_scandir|]. intros entries.
  apply never_exits_for_fold. intros _ n.
  apply never_exits_bind; [apply never_exits_path_is_dir|]. intros d.
  apply never_exits_print.
Qed.

(** ** Exit codes of assemble *)

Lemma retain_no_history N modules w :
  (∀ m, m ∈ modules → is_dir (files w) (child m.2 "history") = false) →
  retain N modules w = (Return tt, w).
Proof.
  unfold retain, for_each. induction modules as [|m modules IH]; intros Hall; [done|].
  cbn [for_fold]. unfold bind at 1. cbn zeta.
  unfold _enforce_retention at 1, bind at 1, bind at 1, path_is_dir at 1.
  rewrite (Hall m) by left. cbn [negb]. unfold ret at 1. cbn [bool_decide decide_rel].
  rewrite bool_decide_eq_true_2 by done. unfold ret at 1.
  apply IH. intros m' Hm'. apply Hall. by right.
Qed.

Lemma combine_loop_not_found out modules :
  ∀ w, (∀ m, m ∈ modules → is_dir (files w) m.2 = false) →
       ∃ w', for_fold (combine_body out) tt modules w = (Return tt, w') ∧
             files w' = files w.
Proof.
  induction modules as [|m modules IH]; intros w Hall; [by exists w|].
  cbn [for_fold]. unfold bind at 1. cbn zeta. unfold bind at 1, path_is_dir at 1.
  rewrite (Hall m) by left. cbn [negb]. unfold print at 1.
  destruct (IH (World (files w) (log w ++ [Stdout (not_found_warning m.1 m.2)])))
    as (w' & Hrun & Hfiles).
  { intros m' Hm'. cbn [files]. apply Hall. by right. }
  exists w'. split; [exact Hrun|exact Hfiles].
Qed.

Lemma summary_loop_returns out names :
  ∀ w, ∃ w', for_fold (summary_body out) tt names w = (Return tt, w') ∧
             files w' = files w.
Proof.
  induction names as [|n names IH]; intros w; [by exists w|].
  cbn [for_fold]. unfold bind at 1. cbn zeta. unfold bind at 1, path_is_dir at 1.
  unfold print at 1.
  match goal with |- context [for_fold _ tt names ?w1] =>
    destruct (IH w1) as (w' & Hrun & Hf) end.
  exists w'. split; [exact Hrun|exact Hf].
Qed.

Lemma print_summary_returns out w :
  is_dir (files w) out = true →
  ∃ w', print_summary out w = (Return tt, w') ∧ files w' = files w.
Proof.
  intros Hd. unfold print_summary, for_each, bind at 1, print at 1.
  unfold bind at 1, scandir at 1.
  cbn [files]. unfold is_dir in Hd. apply bool_decide_eq_true in Hd. rewrite Hd.
  match goal with |- context [for_fold _ tt ?l ?w1] =>
    destruct (summary_loop_returns out l w1) as (w' & Hrun & Hf) end.
  exists w'. split; [exact Hrun|exact Hf].
Qed.

Lemma badge_loop_no_sources module_badges badges_dir mapping w :
  (∀ sd, sd ∈ mapping → is_file (files w) (child module_badges sd.1) = false) →
  for_fold (badge_body module_badges badges_dir) tt mapping w = (Return tt, w).
Proof.
  induction mapping as [|sd mapping IH]; intros Hall; [done|].
  cbn [for_fold]. unfold bind at 1. cbn zeta. unfold bind at 1, path_is_file at 1.
  rewrite (Hall sd) by left. unfold ret at 1. apply IH. intros sd' Hsd'.
  apply Hall. by right.
Qed.

Lemma promote_badges_no_sources name results badges w :
  (∀ s, is_file (files w) (child (child results "badges") s) = false) →
  promote_badges name results badges w = (Return tt, w).
Proof.
  intros Hall. unfold promote_badges. cbn zeta. unfold bind at 1, path_is_dir at 1.
  destruct (if is_dir (files w) (child results "badges")
            then dict_get name _BADGE_MAPPING else None) as [mapping|]; [|done].
  apply badge_loop_no_sources. intros sd _. apply Hall.
Qed.

Lemma parent_child d n : parent (child d n) = d.
Proof. unfold parent, child. apply removelast_last. Qed.

Lemma modules_of_nil args :
  modules_of args = [] ↔
  truthy (Assemble.micro_results args) = false ∧
  truthy (Assemble.integration_results args) = false.
Proof.
  unfold modules_of.
  destruct (truthy (Assemble.micro_results args)),
           (truthy (Assemble.integration_results args)); naive_solver.
Qed.

(** The combine phase returns when the output directory can be created and
    no configured results directory is there. *)
Lemma combine_nothing_found out modules w :
  (∀ j c, files w !! take j out ≠ Some (File c)) →
  (∀ c, files w !! child out "badges" ≠ Some (File c)) →
  (∀ m, m ∈ modules →
        is_dir (files w) m.2 = false ∧ ¬ m.2 `prefix_of` child out "badges") →
  ∃ w', combine recursion_limit out modules w = (Return tt, w') ∧
        is_dir (files w') out = true ∧
        files w' !! child out "metadata.json" = files w !! child out "metadata.json".
Proof.
  intros Hfree Hbadges Hmods. unfold combine, for_each.
  destruct (makedirs out w) as [o1 w1] eqn:Hmk. pose proof Hmk as Hmk'.
  apply makedirs_inv in Hmk' as [_ [(e & _ & _ & Hinl)|[-> _]]].
  { apply makedirs_from_inl in Hinl as (j & c & _ & Hc). by apply Hfree in Hc. }
  pose proof (makedirs_writes _ _ _ _ Hmk) as (_ & Hsub1 & Hw1 & Hdirs).
  specialize (Hdirs eq_refl).
  assert (is_dir (files w1) out = true) as Hout1.
  { specialize (Hdirs (length out)). by rewrite firstn_all in Hdirs. }
  unfold bind at 1. rewrite Hmk. cbn beta iota zeta.
  assert (∃ w2, mkdir_exist_ok (child out "badges") w1 = (Return tt, w2) ∧
                files w1 ⊆ files w2 ∧
                writes_within (λ q, q = child out "badges") (files w1) (files w2))
    as (w2 & Hmk2 & Hsub2 & Hw2).
  { unfold mkdir_exist_ok. rewrite stat_child, parent_child.
    rewrite (writes_within_outside _ _ _ _ Hw1).
    2:{ intros Hpre. apply prefix_length in Hpre. rewrite child_length in Hpre. lia. }
    destruct (files w !! child out "badges") as [[c|]|] eqn:Hb.
    - by destruct (Hbadges c).
    - exists w1. split; [done|]. split; [done|apply writes_within_refl].
    - unfold is_dir in Hout1. apply bool_decide_eq_true in Hout1. rewrite Hout1.
      eexists. split; [done|]. cbn [files].
      assert (files w1 !! child out "badges" = None) as Hn1.
      { rewrite (writes_within_outside _ _ _ _ Hw1); [done|].
        intros Hpre. apply prefix_length in Hpre. rewrite child_length in Hpre. lia. }
      split; [by apply insert_subseteq|].
      apply insert_writes_within; [done|congruence]. }
  unfold bind at 1. rewrite Hmk2. cbn beta iota.
  destruct (combine_loop_not_found out modules w2) as (w' & Hloop & Hfiles).
  { intros m Hm. destruct (Hmods m Hm) as [Hnd Hnp].
    rewrite (writes_within_is_dir_outside _ _ _ _ Hw2).
    2:{ intros Heq. apply Hnp. by rewrite Heq. }
    rewrite (writes_within_is_dir_outside _ _ _ _ Hw1); [done|].
    intros Hpre. apply Hnp. etrans; [done|]. by apply prefix_app_r. }
  exists w'. split; [exact Hloop|]. rewrite Hfiles. split.
  - by eapply is_dir_weaken.
  - rewrite (writes_within_outside _ _ _ _ Hw2).
    2:{ intros Heq. by apply child_inj in Heq as [_ ?]. }
    apply (writes_within_outside _ _ _ _ Hw1).
    intros Hpre. apply prefix_length in Hpre. rewrite child_length in Hpre. lia.
Qed.

(** ** A category that is not there *)

Lemma log_blind_merge_previous pd modules : log_blind (merge_previous pd modules).
Proof.
  unfold merge_previous. destruct pd as [pd|]; [|apply log_blind_ret].
  apply log_blind_bind; [apply log_blind_path_is_dir|]. intros d.
  apply log_blind_if; [apply log_blind_ret|].
  apply log_blind_for_fold. intros _ m. cbn zeta.
  apply log_blind_bind; [apply log_blind_path_is_dir|]. intros hd.
  apply log_blind_if; [apply log_blind_ret|].
  apply log_blind_bind; [apply log_blind_copy_json_files|]. intros count.
  apply log_blind_print.
Qed.

Lemma log_blind_retain N modules : log_blind (retain N modules).
Proof.
  unfold retain. apply log_blind_for_fold. intros _ m. cbn zeta.
  apply log_blind_bind; [apply log_blind_enforce_retention|]. intros removed.
  apply log_blind_if; [apply log_blind_ret|apply log_blind_print].
Qed.

Lemma log_blind_combine_body out m : log_blind (combine_body out tt m).
Proof.
  cbn zeta.
  apply log_blind_bind; [apply log_blind_path_is_dir|]. intros d.
  apply log_blind_if; [apply log_blind_print|].
  apply log_blind_bind; [apply log_blind_copytree|]. intros _.
  apply log_blind_bind; [apply log_blind_print|]. intros _.
  apply log_blind_promote_badges.
Qed.

Lemma log_blind_print_summary out : log_blind (print_summary out).
Proof.
  unfold print_summary.
  apply log_blind_bind; [apply log_blind_print|]. intros _.
  apply log_blind_bind; [apply log_blind_scandir|]. intros entries.
  apply log_blind_for_fold. intros _ n.
  apply log_blind_bind; [apply log_blind_path_is_dir|]. intros d.
  apply log_blind_print.
Qed.

(** Leaving out of a loop an element whose turn changes nothing in the
    filesystem (while [I] holds) does not change how the loop ends. *)
Lemma for_fold_skip {A} (body : unit → A → M unit) (I : fs → Prop) (L1 L2 : list A) x :
  (∀ m, log_blind (body tt m)) →
  (∀ w, I (files w) → ∃ w', body tt x w = (Return tt, w') ∧ files w' = files w) →
  (∀ m w o w', m ∈ L1 → I (files w) → body tt m w = (o, w') → I (files w')) →
  ∀ w w', files w = files w' → I (files w) →
    (for_fold body tt (L1 ++ x :: L2) w).1 = (for_fold body tt (L1 ++ L2) w').1 ∧
    files (for_fold body tt (L1 ++ x :: L2) w).2
      = files (for_fold body tt (L1 ++ L2) w').2.
Proof.
  intros Hblind Hskip. induction L1 as [|a L1 IH]; intros Hpres w w' Hf HI.
  - cbn [app for_fold]. unfold bind.
    destruct (Hskip w HI) as (w1 & -> & Hf1).
    apply (log_blind_same_files (for_fold body tt L2) w1 w'); [|congruence].
    apply log_blind_for_fold. intros [] m. apply Hblind.
  - cbn [app for_fold]. unfold bind.
    destruct (log_blind_same_files (body tt a) w w' (Hblind a) Hf) as [Ho Hfa].
    destruct (body tt a w) as [o1 w1] eqn:H1, (body tt a w') as [o2 w2] eqn:H2.
    cbn [fst snd] in Ho, Hfa. subst o2.
    destruct o1 as [[]|e|c]; [|done..].
    apply IH; [|done|].
    + intros m w0 o0 w0' Hm. apply Hpres. by right.
    + eapply Hpres; [left|exact HI|exact H1].
Qed.

Lemma for_fold_preserves {A} (body : unit → A → M unit) (I : fs → Prop) (L : list A) :
  (∀ m w o w', m ∈ L → I (files w) → body tt m w = (o, w') → I (files w')) →
  ∀ w o w', I (files w) → for_fold body tt L w = (o, w') → I (files w').
Proof.
  intros Hpres w o w' HI Hrun. revert HI. revert Hrun.
  apply (for_fold_rel (λ w w', I (files w) → I (files w')) body L).
  - done.
  - intros w1 w2 w3 H12 H23 H1. auto.
  - intros [] m w0 o0 w0' Hm Hbody H0. by eapply Hpres.
Qed.

Lemma loop_skip {A} (body : unit → A → M unit) (I : fs → Prop) (L1 L2 : list A) x :
  (∀ m, log_blind (body tt m)) →
  (∀ w, I (files w) → ∃ w', body tt x w = (Return tt, w') ∧ files w' = files w) →
  (∀ m w o w', m ∈ L1 ++ L2 → I (files w) → body tt m w = (o, w') → I (files w')) →
  ∀ w w', files w = files w' → I (files w) →
    ((for_fold body tt (L1 ++ x :: L2) w).1 = (for_fold body tt (L1 ++ L2) w').1 ∧
     files (for_fold body tt (L1 ++ x :: L2) w).2
       = files (for_fold body tt (L1 ++ L2) w').2) ∧
    I (files (for_fold body tt (L1 ++ x :: L2) w).2).
Proof.
  intros Hblind Hskip Hpres w w' Hf HI. split.
  - apply (for_fold_skip body I); try done.
    intros m w0 o w0' Hm. apply Hpres. apply elem_of_app. by left.
  - destruct (for_fold body tt (L1 ++ x :: L2) w) as [o w1] eqn:Hrun. cbn [snd].
    eapply (for_fold_preserves body I); [|exact HI|exact Hrun].
    intros m w0 o0 w0' Hm H0 Hbody.
    apply elem_of_app in Hm as [Hm|Hm]; [|apply elem_of_cons in Hm as [->|Hm]].
    + eapply Hpres; [|exact H0|exact Hbody]. apply elem_of_app. by left.
    + destruct (Hskip w0 H0) as (w2 & Hx & Hf2). rewrite Hx in Hbody.
      injection Hbody as _ <-. by rewrite Hf2.
    + eapply Hpres; [|exact H0|exact Hbody]. apply elem_of_app. by right.
Qed.

Lemma bind_same {A B} (m m' : M A) (k k' : A → M B) (w w' : world) :
  (m w).1 = (m' w').1 → files (m w).2 = files (m' w').2 →
  (∀ a w1 w1', m w = (Return a, w1) → m' w' = (Return a, w1') → files w1 = files w1' →
     (k a w1).1 = (k' a w1').1 ∧ files (k a w1).2 = files (k' a w1').2) →
  (bind m k w).1 = (bind m' k' w').1 ∧ files (bind m k w).2 = files (bind m' k' w').2.
Proof.
  intros Ho Hf Hk. unfold bind.
  destruct (m w) as [o1 w1], (m' w') as [o2 w2]. cbn [fst snd] in Ho, Hf. subst o2.
  destruct o1 as [a|e|c]; [by apply Hk|done|done].
Qed.

Lemma not_around_results (Rx Ry : path) :
  apart Rx (child Ry "history") →
  ¬ around (child Ry "history") Rx ∧
  ¬ around (child Ry "history") (child Rx "history").
Proof.
  intros [H1 H2]. split.
  - intros [?|?]; done.
  - intros [Hp|Hp].
    + apply prefix_of_child in Hp as [Heq|Hp].
      * apply child_inj in Heq as [-> _]. apply H1, prefix_child_l.
      * apply H1. etrans; [apply prefix_child_l|]. etrans; [exact Hp|apply prefix_child_l].
    + apply prefix_of_child in Hp as [Heq|Hp]; [|done].
      apply child_inj in Heq as [<- _]. apply H1, prefix_child_l.
Qed.

Lemma not_around_previous (pd Ry : path) x :
  apart pd (child Ry "history") → x ≠ "history" →
  ¬ around (child Ry "history") (child (child pd x) "history").
Proof.
  intros [H1 H2] Hx [Hp|Hp].
  - apply H1. etrans; [|exact Hp]. etrans; apply prefix_child_l.
  - apply prefix_of_child in Hp as [Heq|Hp].
    + apply child_inj in Heq as [-> _]. apply H1. etrans; apply prefix_child_l.
    + apply prefix_of_child in Hp as [Heq|Hp]; [|done].
      apply child_inj in Heq as [_ <-]. done.
Qed.

Local Abbreviation absent Q := (λ s : fs, ∀ q : path, q ∈ Q → is_dir s q = false).

Lemma writes_within_absent P s s' (Q : list path) :
  writes_within P s s' → (∀ q, q ∈ Q → ¬ P q) → absent Q s → absent Q s'.
Proof.
  intros Hw HQ Habs q Hq.
  rewrite (writes_within_is_dir_outside _ _ _ q Hw); [by apply Habs|by apply HQ].
Qed.

Lemma log_blind_merge_body pd m : log_blind (merge_body pd tt m).
Proof.
  cbn zeta.
  apply log_blind_bind; [apply log_blind_path_is_dir|]. intros hd.
  apply log_blind_if; [apply log_blind_ret|].
  apply log_blind_bind; [apply log_blind_copy_json_files|]. intros count.
  apply log_blind_print.
Qed.

Lemma merge_body_around pd m w o w' :
  merge_body pd tt m w = (o, w') →
  writes_within (around (child m.2 "history")) (files w) (files w').
Proof.
  intros Hbody.
  apply merge_body_inv in Hbody as [(_ & _ & ->)|(_ & oc & wc & Hc & Hf & _)].
  { apply writes_within_refl. }
  rewrite Hf. apply copy_json_files_writes in Hc as [_ Hw].
  eapply writes_within_weaken; [|exact Hw].
  intros p [Hp|(n & _ & [-> | ->])]; [by left|right..].
  - apply prefix_child_l.
  - etrans; apply prefix_child_l.
Qed.

Lemma log_blind_retain_body N m : log_blind (retain_body N tt m).
Proof.
  cbn zeta.
  apply log_blind_bind; [apply log_blind_enforce_retention|]. intros removed.
  apply log_blind_if; [apply log_blind_ret|apply log_blind_print].
Qed.

Lemma retain_body_absent N m w o w' (Q : list path) :
  retain_body N tt m w = (o, w') → absent Q (files w) → absent Q (files w').
Proof.
  cbn zeta. unfold bind at 1.
  destruct (_enforce_retention (child m.2 "history") N w) as [o1 w1] eqn:Hr.
  apply enforce_retention_footprint in Hr as [_ Hfoot].
  intros Hbody.
  assert (files w' = files w1) as ->.
  { destruct o1 as [removed|e|c]; [|by injection Hbody as _ <-..].
    destruct (bool_decide (removed = 0)); unfold ret, print in Hbody;
      by injection Hbody as _ <-. }
  intros Habs q Hq. specialize (Habs q Hq).
  unfold is_dir, stat in *. destruct q as [|y q]; [done|].
  apply bool_decide_eq_false in Habs. apply bool_decide_eq_false.
  destruct (Hfoot (y :: q)) as [->|(_ & _ & _ & ->)]; done.
Qed.

Lemma combine_body_around out m w o w' :
  combine_body out tt m w = (o, w') →
  writes_within (around out) (files w) (files w').
Proof.
  cbn zeta. unfold bind at 1, path_is_dir at 1.
  destruct (is_dir (files w) m.2); cbn [negb].
  2:{ unfold print. intros [= _ <-]. apply writes_within_refl. }
  unfold bind at 1.
  destruct (copytree recursion_limit m.2 (child out m.1) w) as [o1 w1] eqn:Hc.
  apply copytree_writes in Hc as [_ Hw1].
  assert (writes_within (around out) (files w) (files w1)) as Hw1'.
  { eapply writes_within_weaken; [|exact Hw1]. intros q. apply around_child. }
  destruct o1 as [[]|e|c]; [|by intros [= _ <-]..].
  unfold bind at 1, print at 1. intros Hp.
  apply promote_badges_writes in Hp as [_ Hw2]. cbn [files] in Hw2.
  eapply writes_within_trans; [exact Hw1'|].
  eapply writes_within_weaken; [|exact Hw2].
  intros q Hq. right. etrans; [apply prefix_child_l|exact Hq].
Qed.

Local Abbreviation pipeline pd N out ts sha modules :=
  (merge_previous pd modules ;;
   retain N modules ;;
   combine recursion_limit out modules ;;
   write_metadata json_str out ts sha ;;
   print_summary out).

Lemma merge_previous_skip pd (L1 L2 : list (string * path)) (x : string * path) w w' :
  files w = files w' →
  x.1 ≠ "history" →
  is_dir (files w) x.2 = false →
  is_dir (files w) (child x.2 "history") = false →
  (∀ pdir, pd = Some pdir →
     is_dir (files w) (child (child pdir x.1) "history") = false) →
  (∀ m, m ∈ L1 ++ L2 → apart x.2 (child m.2 "history")) →
  (∀ pdir m, pd = Some pdir → m ∈ L1 ++ L2 → apart pdir (child m.2 "history")) →
  ((merge_previous pd (L1 ++ x :: L2) w).1 = (merge_previous pd (L1 ++ L2) w').1 ∧
   files (merge_previous pd (L1 ++ x :: L2) w).2
     = files (merge_previous pd (L1 ++ L2) w').2) ∧
  absent [x.2; child x.2 "history"] (files (merge_previous pd (L1 ++ x :: L2) w).2).
Proof.
  intros Hf Hx Hr Hh Hp Hax Hap.
  assert (absent [x.2; child x.2 "history"] (files w)) as Habs.
  { intros q Hq. apply elem_of_cons in Hq as [->|Hq]; [done|].
    by apply list_elem_of_singleton in Hq as ->. }
  rewrite !merge_previous_unfold. destruct pd as [pdir|]; [|done].
  rewrite <-Hf. destruct (is_dir (files w) pdir); [|done].
  destruct (loop_skip (merge_body pdir)
              (absent [child (child pdir x.1) "history"; x.2; child x.2 "history"])
              L1 L2 x) with (w := w) (w' := w') as [Hsame Hafter]; try done.
  - intros m. apply log_blind_merge_body.
  - intros w0 H0. exists w0. split; [|done].
    cbn zeta. unfold bind at 1, path_is_dir at 1. rewrite H0 by left. done.
  - intros m w0 o w0' Hm H0 Hb.
    eapply writes_within_absent; [exact (merge_body_around _ _ _ _ _ Hb)| |exact H0].
    intros q Hq. destruct (not_around_results _ _ (Hax m Hm)) as [Hn1 Hn2].
    apply elem_of_cons in Hq as [->|Hq]; [by apply not_around_previous; [eapply Hap|]|].
    apply elem_of_cons in Hq as [->|Hq]; [done|].
    by apply list_elem_of_singleton in Hq as ->.
  - intros q Hq. apply elem_of_cons in Hq as [->|Hq]; [by apply Hp|by apply Habs].
  - split; [done|]. intros q Hq. apply Hafter. by right.
Qed.

Lemma retain_skip N (L1 L2 : list (string * path)) (x : string * path) w w' :
  files w = files w' →
  absent [x.2; child x.2 "history"] (files w) →
  ((retain N (L1 ++ x :: L2) w).1 = (retain N (L1 ++ L2) w').1 ∧
   files (retain N (L1 ++ x :: L2) w).2 = files (retain N (L1 ++ L2) w').2) ∧
  absent [x.2; child x.2 "history"] (files (retain N (L1 ++ x :: L2) w).2).
Proof.
  intros Hf Habs. unfold retain, for_each.
  apply (loop_skip (retain_body N) (absent [x.2; child x.2 "history"]) L1 L2 x);
    try done.
  - intros m. apply log_blind_retain_body.
  - intros w0 H0. exists w0. split; [|done].
    cbn zeta. unfold bind at 1. rewrite enforce_retention_unfold.
    rewrite H0 by (right; left). done.
  - intros m w0 o w0' _ H0 Hb. by eapply retain_body_absent.
Qed.

Lemma combine_skip out (L1 L2 : list (string * path)) (x : string * path) w w' :
  files w = files w' →
  is_dir (files w) x.2 = false →
  apart x.2 out →
  (combine recursion_limit out (L1 ++ x :: L2) w).1
    = (combine recursion_limit out (L1 ++ L2) w').1 ∧
  files (combine recursion_limit out (L1 ++ x :: L2) w).2
    = files (combine recursion_limit out (L1 ++ L2) w').2.
Proof.
  intros Hf Hr [Hxo Hox]. unfold combine.
  assert (absent [x.2] (files w)) as Habs.
  { intros q Hq. by apply list_elem_of_singleton in Hq as ->. }
  apply bind_same; [apply (log_blind_same_files _ _ _ (log_blind_makedirs out) Hf)..|].
  intros [] w1 w1' Hmk _ Hf1. cbn zeta.
  apply makedirs_writes in Hmk as (_ & _ & Hw1 & _).
  assert (absent [x.2] (files w1)) as Habs1.
  { eapply writes_within_absent; [exact Hw1| |exact Habs].
    intros q Hq. by apply list_elem_of_singleton in Hq as ->. }
  apply bind_same;
    [apply (log_blind_same_files _ _ _ (log_blind_mkdir_exist_ok _) Hf1)..|].
  intros [] w2 w2' Hmb _ Hf2.
  apply mkdir_exist_ok_writes in Hmb as [_ Hw2].
  assert (absent [x.2] (files w2)) as Habs2.
  { eapply writes_within_absent; [exact Hw2| |exact Habs1].
    intros q Hq. apply list_elem_of_singleton in Hq as ->.
    intros Heq. apply Hox. rewrite Heq. apply prefix_child_l. }
  unfold for_each.
  apply (loop_skip (combine_body out) (absent [x.2]) L1 L2 x); try done.
  - intros m. apply log_blind_combine_body.
  - intros w0 H0.
    exists (World (files w0) (log w0 ++ [Stdout (not_found_warning x.1 x.2)])).
    split; [|done].
    cbn zeta. unfold bind at 1, path_is_dir at 1. rewrite H0 by left.
    cbn [negb]. unfold print. reflexivity.
  - intros m w0 o w0' _ H0 Hb.
    eapply writes_within_absent; [exact (combine_body_around _ _ _ _ _ Hb)| |exact H0].
    intros q Hq. apply list_elem_of_singleton in Hq as ->. intros [?|?]; done.
Qed.

(** A configured category that is not there (no results directory, no
    history in the snapshot) is passed over in each step: the run ends as the
    run without this category does, with the same filesystem. *)
Lemma pipeline_skip pd N out ts sha (L1 L2 : list (string * path)) (x : string * path) w :
  x.1 ≠ "history" →
  is_dir (files w) x.2 = false →
  is_dir (files w) (child x.2 "history") = false →
  (∀ pdir, pd = Some pdir →
     is_dir (files w) (child (child pdir x.1) "history") = false) →
  (∀ m, m ∈ L1 ++ L2 → apart x.2 (child m.2 "history")) →
  (∀ pdir m, pd = Some pdir → m ∈ L1 ++ L2 → apart pdir (child m.2 "history")) →
  apart x.2 out →
  (pipeline pd N out ts sha (L1 ++ x :: L2) w).1
    = (pipeline pd N out ts sha (L1 ++ L2) w).1 ∧
  files (pipeline pd N out ts sha (L1 ++ x :: L2) w).2
    = files (pipeline pd N out ts sha (L1 ++ L2) w).2.
Proof.
  intros Hx Hr Hh Hp Hax Hap Hout.
  destruct (merge_previous_skip pd L1 L2 x w w eq_refl Hx Hr Hh Hp Hax Hap)
    as [[Ho1 Hf1] Habs1].
  apply bind_same; [done|done|]. intros [] w1 w1' Hm1 _ Hfw1.
  rewrite Hm1 in Habs1. cbn [snd] in Habs1.
  destruct (retain_skip N L1 L2 x w1 w1' Hfw1 Habs1) as [[Ho2 Hf2] Habs2].
  apply bind_same; [done|done|]. intros [] w2 w2' Hm2 _ Hfw2.
  rewrite Hm2 in Habs2. cbn [snd] in Habs2.
  destruct (combine_skip out L1 L2 x w2 w2' Hfw2 (Habs2 _ ltac:(left)) Hout)
    as [Ho3 Hf3].
  apply bind_same; [done|done|]. intros [] w3 w3' _ _ Hfw3.
  apply bind_same;
    [apply (log_blind_same_files _ _ _ (log_blind_write_file _ _) Hfw3)..|].
  intros [] w4 w4' _ _ Hfw4.
  apply (log_blind_same_files _ _ _ (log_blind_print_summary out) Hfw4).
Qed.


End AssembleProperties.



(** ** The destination directory is created *)

Lemma copy_json_files_creates src dst skip w o w' :
  _copy_json_files src dst skip w = (o, w') →
  (∃ e, o = Raise e ∧ w' = w ∧ makedirs dst w = (Raise e, w)) ∨
  (∀ j, is_dir (files w') (take j dst) = true).
Proof.
  rewrite copy_json_files_unfold.
  destruct (makedirs dst w) as [[[]|e|c] w1] eqn:Hmk.
  - intros Hloop. right. intros j.
    apply makedirs_writes in Hmk as (_ & _ & _ & Hdirs). specialize (Hdirs eq_refl j).
    apply copy_loop_footprint in Hloop as (_ & _ & Hfoot).
    unfold is_dir, stat in *. destruct (take j dst) as [|x q]; [done|].
    apply bool_decide_eq_true in Hdirs. apply bool_decide_eq_true.
    destruct (Hfoot (x :: q)) as [->|(_ & _ & _ & _ & _ & ?)]; done.
  - intros [= <- <-]. left. exists e.
    apply makedirs_inv in Hmk as [_ [(e' & [= <-] & -> & _)|[? _]]]; done.
  - by apply never_exits_makedirs in Hmk.
Qed.

Lemma enforce_retention_keeps_dirs d N w o w' :
  _enforce_retention d N w = (o, w') →
  log w' = log w ∧ ∀ p, files w !! p = Some Dir → files w' !! p = Some Dir.
Proof.
  unfold _enforce_retention, bind, path_is_dir, glob_json. cbn [files].
  destruct (is_dir (files w) d); cbn [negb].
  2:{ unfold ret. by intros [= <- <-]. }
  apply (for_fold_rel (λ w w',
    log w' = log w ∧ ∀ p, files w !! p = Some Dir → files w' !! p = Some Dir)).
  - done.
  - intros w1 w2 w3 [Hl1 H1] [Hl2 H2]. split; [congruence|auto].
  - intros acc n w0 o0 w0' _. unfold bind, ret.
    destruct (unlink (child d n) w0) as [[[]|e|c] w1] eqn:Hu; intros [= <- <-];
      apply unlink_inv in Hu as [Hlog [[_ ->]|(Ho & (c' & Hc) & Hw)]]; try done.
    split; [done|]. intros p Hp. rewrite Hw. rewrite lookup_delete_ne; [done|].
    intros <-. rewrite stat_child in Hc. congruence.
Qed.

(** * Further properties of the script *)

(** ** Retention: what a call that returned has done *)

Lemma slice_from_drop {A} (N : Z) (l : list A) :
  ∃ i, (i ≤ length l)%nat ∧ Py.slice_from N l = drop i l ∧
    ((0 ≤ N)%Z → i = Nat.min (Z.to_nat N) (length l)) ∧
    ((N < 0)%Z → i = length l - Z.to_nat (- N)).
Proof.
  unfold Py.slice_from.
  exists (Z.to_nat (if (N <? 0)%Z then Z.max 0 (N + Z.of_nat (length l))
                    else Z.min N (Z.of_nat (length l)))).
  destruct (Z.ltb_spec N 0); repeat split; intros; lia.
Qed.

Lemma unlink_loop_returned d names :
  NoDup names →
  ∀ acc w r w',
    for_fold (λ removed name, unlink (child d name) ;; ret (S removed)) acc names w
      = (Return r, w') →
    r = acc + length names ∧ log w' = log w ∧
    ∀ p, files w' !! p = if decide (p ∈ child d <$> names) then None else files w !! p.
Proof.
  induction 1 as [|n names Hn Hnd IH]; intros acc w r w' Hrun.
  - cbn in Hrun. unfold ret in Hrun. injection Hrun as <- <-.
    split; [simpl; lia|]. split; [done|]. intros p.
    rewrite decide_False; [done|]. simpl. apply not_elem_of_nil.
  - cbn [for_fold] in Hrun. apply bind_inv_Return in Hrun as (a & w1 & Hbody & Hrest).
    apply bind_inv_Return in Hbody as ([] & w1' & Hu & Hret).
    unfold ret in Hret. injection Hret as <- <-.
    apply unlink_inv in Hu as [Hlog [[[e ?] _]|(_ & _ & Hw)]]; [done|].
    apply IH in Hrest as (-> & Hlog' & Hfoot).
    split; [simpl; lia|]. split; [congruence|]. intros p.
    rewrite Hfoot, Hw, fmap_cons.
    destruct (decide (p = child d n)) as [->|Hne].
    + rewrite lookup_delete_eq. rewrite (decide_True (P := _ ∈ _ :: _)); [|left].
      by case_decide.
    + rewrite lookup_delete_ne by done.
      destruct (decide (p ∈ child d <$> names)) as [Hin|Hnin].
      * rewrite decide_True; [done|by right].
      * rewrite decide_False; [done|]. rewrite elem_of_cons. tauto.
Qed.

Lemma NoDup_take_drop {A} (l : list A) i :
  NoDup l → NoDup (take i l) ∧ NoDup (drop i l) ∧ ∀ x, x ∈ take i l → x ∉ drop i l.
Proof.
  intros Hnd. rewrite <-(take_drop i l) in Hnd.
  apply NoDup_app in Hnd as (? & ? & ?). done.
Qed.

(** A call on a directory that returned has removed the slice of the sorted
    names, and the names left are the ones before the slice. *)
Lemma enforce_retention_returned d N w r w' :
  _enforce_retention d N w = (Return r, w') →
  is_dir (files w) d = true →
  let L := Py.sorted_reverse (glob_json_in (files w) d) in
  ∃ i, (i ≤ length L)%nat ∧ Py.slice_from N L = drop i L ∧
    ((0 ≤ N)%Z → i = Nat.min (Z.to_nat N) (length L)) ∧
    ((N < 0)%Z → i = length L - Z.to_nat (- N)) ∧
    r = length L - i ∧ log w' = log w ∧
    (∀ p, files w' !! p = if decide (p ∈ child d <$> drop i L) then None
                          else files w !! p) ∧
    is_dir (files w') d = true ∧
    (∀ n, n ∈ glob_json_in (files w') d ↔ n ∈ take i L) ∧
    glob_json_in (files w') d ≡ₚ take i L.
Proof.
  intros Hrun Hd L. rewrite enforce_retention_unfold, Hd in Hrun. fold L in Hrun.
  destruct (slice_from_drop N L) as (i & Hi & Hslice & Hpos & Hneg).
  exists i. rewrite Hslice in Hrun.
  assert (NoDup L) as HndL.
  { unfold L. rewrite sorted_reverse_Permutation. apply NoDup_glob_json_in. }
  assert (∀ n, n ∈ L ↔ n ∈ glob_json_in (files w) d) as HL.
  { intros n. unfold L. by rewrite sorted_reverse_Permutation. }
  destruct (NoDup_take_drop L i HndL) as (Hndt & Hndd & Hdisj).
  apply (unlink_loop_returned d _ Hndd) in Hrun as (-> & Hlog & Hs').
  assert (is_dir (files w') d = true) as Hd'.
  { unfold is_dir, stat in *. destruct d as [|x d0]; [done|].
    rewrite Hs'. rewrite decide_False; [done|].
    rewrite list_elem_of_fmap. intros (n & Heq & _).
    apply (f_equal length) in Heq. unfold child in Heq.
    rewrite length_app in Heq. simpl in Heq. lia. }
  assert (∀ n, n ∈ glob_json_in (files w') d ↔ n ∈ take i L) as Hafter.
  { intros n. rewrite elem_of_glob_json_in, Hs'. split.
    - intros (_ & Hj & Hsome). case_decide as Hin; [by destruct Hsome|].
      assert (n ∈ L) as HnL.
      { apply HL, elem_of_glob_json_in. done. }
      apply (elem_of_take_or_drop _ i) in HnL as [?|Hdrop]; [done|].
      destruct Hin. apply list_elem_of_fmap. eauto.
    - intros Hn. assert (n ∈ glob_json_in (files w) d) as Hnb.
      { apply HL, (elem_of_take_or_drop _ i). by left. }
      apply elem_of_glob_json_in in Hnb as (_ & Hj & Hsome).
      split; [done|]. split; [done|]. rewrite decide_False; [done|].
      rewrite list_elem_of_fmap. intros (m & Heq & Hm).
      apply child_inj in Heq as [_ <-]. by apply (Hdisj n). }
  repeat split; try done.
  - rewrite length_drop. lia.
  - by apply Hafter.
  - by apply Hafter.
  - apply NoDup_Permutation; [apply NoDup_glob_json_in|done|done].
Qed.

Lemma glob_json_in_not_dir s d : is_dir s d = false → glob_json_in s d = [].
Proof. unfold glob_json_in. by intros ->. Qed.

Lemma enforce_retention_left d N w w' removed :
  (0 ≤ N)%Z →
  _enforce_retention d N w = (Return removed, w') →
  (length (glob_json_in (files w') d) ≤ Z.to_nat N)%nat ∧
  length (glob_json_in (files w) d) = length (glob_json_in (files w') d) + removed.
Proof.
  intros HN Hrun. destruct (is_dir (files w) d) eqn:Hd.
  - apply enforce_retention_returned in Hrun as
      (i & Hi & _ & Hpos & _ & -> & _ & _ & _ & _ & Hperm); [|done].
    rewrite Hperm, length_take. rewrite sorted_reverse_Permutation in *.
    specialize (Hpos HN). lia.
  - rewrite enforce_retention_unfold, Hd in Hrun. injection Hrun as <- <-.
    rewrite glob_json_in_not_dir by done. simpl. lia.
Qed.

(** After a call of [_enforce_retention] that returned, for a maximum
    [N >= 0] and whatever the directory held: at most [N] entries matching
    [*.json] are left, and the returned count is the number of such entries
    that are gone. *)
Theorem enforce_retention_bound (d : path) (N : Z) (w w' : world) (removed : nat) :
  (0 ≤ N)%Z →
  _enforce_retention d N w = (Return removed, w') →
  (Z.of_nat (length (glob_json_in (files w') d)) ≤ N)%Z ∧
  length (glob_json_in (files w) d) = length (glob_json_in (files w') d) + removed.
Proof.
  intros HN Hrun. destruct (enforce_retention_left d N w w' removed HN Hrun) as [Hle Hcount].
  split; [lia|done].
Qed.

Lemma enforce_retention_bound_witness :
  let w := World fs_history [] in
  let w' := (_enforce_retention ["h"] 2 w).2 in
  (Z.of_nat (length (glob_json_in (files w') ["h"])) ≤ 2)%Z ∧
  length (glob_json_in (files w) ["h"]) = length (glob_json_in (files w') ["h"]) + 1.
Proof.
  apply (enforce_retention_bound ["h"] 2 (World fs_history [])
           (_enforce_retention ["h"] 2 (World fs_history [])).2 1).
  - lia.
  - reflexivity.
Defined.

(** Retention is idempotent for a maximum [N >= 0]: after a call that
    returned, a second call on the same directory removes nothing, returns 0
    and leaves the world as it is. *)
Theorem enforce_retention_twice (d : path) (N : Z) (w w1 : world) (removed : nat) :
  (0 ≤ N)%Z →
  _enforce_retention d N w = (Return removed, w1) →
  _enforce_retention d N w1 = (Return 0, w1).
Proof.
  intros HN Hrun. apply enforce_retention_left in Hrun as [Hle _]; [|done].
  rewrite enforce_retention_unfold. destruct (is_dir (files w1) d); [|done].
  rewrite slice_from_nonneg by done. rewrite drop_ge; [done|].
  by rewrite sorted_reverse_Permutation.
Qed.

Lemma enforce_retention_twice_witness :
  let w1 := (_enforce_retention ["h"] 2 (World fs_history [])).2 in
  _enforce_retention ["h"] 2 w1 = (Return 0, w1).
Proof.
  apply (enforce_retention_twice ["h"] 2 (World fs_history [])
           (_enforce_retention ["h"] 2 (World fs_history [])).2 1).
  - lia.
  - reflexivity.
Defined.

(** A negative maximum [N] counts from the end of the sorted list
    ([files[N:]]): on a directory whose [k] entries matching [*.json] are
    regular files, the enforcer returns [min k (-N)], the [-N]
    lexicographically smallest names are removed (all of them when
    [k <= -N]), and the entries left are unchanged. *)
Theorem enforce_retention_negative (d : path) (N : Z) (w : world) :
  (N < 0)%Z →
  (∀ n, n ∈ glob_json_in (files w) d → is_file (files w) (child d n) = true) →
  let before := glob_json_in (files w) d in
  let k := length before in
  ∃ w',
    _enforce_retention d N w = (Return (Nat.min k (Z.to_nat (- N))), w') ∧
    let after := glob_json_in (files w') d in
    length after = k - Z.to_nat (- N) ∧
    (∀ n, n ∈ after → n ∈ before ∧ files w' !! child d n = files w !! child d n) ∧
    (∀ n m, n ∈ after → m ∈ before → m ∉ after → Py.str_lt m n).
Proof.
  intros HN Hfiles before k.
  destruct (is_dir (files w) d) eqn:Hd.
  2:{ exists w. rewrite enforce_retention_unfold, Hd. subst k before.
      rewrite glob_json_in_not_dir by done. simpl. repeat split; try done.
      all: intros n; by rewrite elem_of_nil. }
  set (L := Py.sorted_reverse before).
  assert (NoDup L) as HndL.
  { unfold L. rewrite sorted_reverse_Permutation. apply NoDup_glob_json_in. }
  assert (∀ n, n ∈ L ↔ n ∈ before) as HL.
  { intros n. unfold L. by rewrite sorted_reverse_Permutation. }
  assert (length L = k) as HlenL.
  { unfold L, k. by rewrite sorted_reverse_Permutation. }
  destruct (slice_from_drop N L) as (i0 & _ & Hslice0 & _ & _).
  destruct (NoDup_take_drop L i0 HndL) as (_ & Hndd0 & _).
  destruct w as [s lg]. cbn [files] in *.
  destruct (unlink_loop d (drop i0 L) s lg 0 Hndd0) as (s' & Hrun0 & _).
  { intros n Hn. apply Hfiles, HL, (elem_of_take_or_drop _ i0). by right. }
  assert (_enforce_retention d N (World s lg)
          = (Return (0 + length (drop i0 L)), World s' lg)) as Hrun.
  { rewrite enforce_retention_unfold. cbn [files]. rewrite Hd. fold before. fold L.
    by rewrite Hslice0. }
  pose proof Hrun as Hret.
  apply enforce_retention_returned in Hret as
    (i & Hi & _ & _ & Hneg & Hr & _ & Hs' & _ & Hafter & Hperm); [|done].
  cbn [files] in *. fold before in Hi, Hneg, Hr, Hs', Hafter, Hperm.
  fold L in Hi, Hneg, Hr, Hs', Hafter, Hperm.
  specialize (Hneg HN). destruct (NoDup_take_drop L i HndL) as (_ & _ & Hdisj).
  exists (World s' lg). cbn [files]. split.
  { rewrite Hrun. f_equal. f_equal. lia. }
  split; [rewrite Hperm, length_take; lia|]. split.
  - intros n Hn. apply Hafter in Hn. split.
    + apply HL, (elem_of_take_or_drop _ i). by left.
    + rewrite Hs'. rewrite decide_False; [done|].
      rewrite list_elem_of_fmap. intros (m & Heq & Hm).
      apply child_inj in Heq as [_ <-]. by apply (Hdisj n).
  - intros n m Hn Hm Hm'. apply Hafter in Hn.
    apply (descending_take_drop L i); [apply sorted_reverse_descending|done|done|].
    apply HL, (elem_of_take_or_drop _ i) in Hm as [Hm|Hm]; [|done].
    by apply Hafter in Hm.
Qed.

Lemma enforce_retention_negative_witness :
  let w := World fs_history [] in
  ∃ w',
    _enforce_retention ["h"] (-1) w
      = (Return (Nat.min (length (glob_json_in (files w) ["h"])) (Z.to_nat (- -1))), w') ∧
    let after := glob_json_in (files w') ["h"] in
    length after = length (glob_json_in (files w) ["h"]) - Z.to_nat (- -1) ∧
    (∀ n, n ∈ after →
       n ∈ glob_json_in (files w) ["h"] ∧
       files w' !! child ["h"] n = files w !! child ["h"] n) ∧
    (∀ n m, n ∈ after → m ∈ glob_json_in (files w) ["h"] → m ∉ after → Py.str_lt m n).
Proof.
  apply (enforce_retention_negative ["h"] (-1) (World fs_history [])).
  - lia.
  - apply (forall_elem_of_dec (λ n, is_file fs_history (child ["h"] n) = true)).
    vm_compute. reflexivity.
Defined.

(** ** The count returned by the copy primitive *)

Lemma filter_ext_elem {A} (P Q : A → Prop) `{∀ x, Decision (P x)} `{∀ x, Decision (Q x)}
    (l : list A) :
  (∀ x, x ∈ l → P x ↔ Q x) → filter P l = filter Q l.
Proof.
  induction l as [|x l IH]; intros Hext; [done|].
  rewrite !filter_cons. rewrite IH by (intros y Hy; apply Hext; by right).
  destruct (decide (P x)) as [HP|HP], (decide (Q x)) as [HQ|HQ]; try done.
  - destruct HQ. apply Hext; [left|done].
  - destruct HP. apply Hext; [left|done].
Qed.

Lemma filter_all {A} (P : A → Prop) `{∀ x, Decision (P x)} (l : list A) :
  (∀ x, P x) → filter P l = l.
Proof.
  intros HP. induction l as [|x l IH]; [done|].
  by rewrite filter_cons, decide_True, IH.
Qed.

Lemma child_not_prefix (d : path) n : ¬ child d n `prefix_of` d.
Proof.
  intros Hp. apply prefix_length in Hp. unfold child in Hp.
  rewrite length_app in Hp. simpl in Hp. lia.
Qed.

Lemma copy_loop_count src dst skip names :
  NoDup names →
  ∀ acc w count w',
    for_fold (copy_body src dst skip) acc names w = (Return count, w') →
    count = acc + length (filter (λ n, skip = false ∨ files w !! child dst n = None) names).
Proof.
  induction 1 as [|h t Hh Hnd IH]; intros acc w count w' Hrun.
  { cbn in Hrun. unfold ret in Hrun. injection Hrun as <- _. simpl. lia. }
  cbn [for_fold] in Hrun. apply bind_inv_Return in Hrun as (a & w1 & Hbody & Hrest).
  apply IH in Hrest as ->. rewrite filter_cons.
  apply (copy_body_inv src dst skip acc h) in Hbody
    as [_ [[-> [(Ha & -> & Hex)|[? ?]]]|Hwrite]]; try done.
  - injection Ha as ->. rewrite decide_False; [done|].
    intros [?|Hnone]; [done|]. apply exists_child_false in Hnone. congruence.
  - destruct Hwrite as (c & target & Ha & Hnone & _ & Ht & _ & _ & Hw1).
    injection Ha as ->. rewrite decide_True.
    2:{ destruct skip; [right; by apply Hnone|by left]. }
    rewrite (filter_ext_elem
               (λ n, skip = false ∨ files w1 !! child dst n = None)
               (λ n, skip = false ∨ files w !! child dst n = None)).
    { simpl. lia. }
    intros n Hn. rewrite Hw1. rewrite lookup_insert_ne; [done|].
    rewrite Ht. destruct (is_dir _ _); intros Heq.
    + by apply child_child_ne in Heq.
    + apply child_inj in Heq as [_ ->]. done.
Qed.

Lemma makedirs_glob_json dst src w w1 :
  ¬ src `prefix_of` dst →
  makedirs dst w = (Return tt, w1) →
  glob_json_in (files w1) src ≡ₚ glob_json_in (files w) src ∧
  ∀ n, files w1 !! child dst n = files w !! child dst n.
Proof.
  intros Hsrc Hmk. apply makedirs_writes in Hmk as (_ & _ & Hw & _). split.
  - apply NoDup_Permutation; [apply NoDup_glob_json_in..|].
    intros n. rewrite !elem_of_glob_json_in.
    rewrite (writes_within_is_dir_outside _ _ _ src Hw) by done.
    rewrite (writes_within_outside _ _ _ (child src n) Hw); [done|].
    intros Hp. apply Hsrc. etrans; [apply prefix_child_l|exact Hp].
  - intros n. apply (writes_within_outside _ _ _ _ Hw), child_not_prefix.
Qed.

(** The count returned by [_copy_json_files], for a source that is not on the
    path to the destination: without skip-existing it is the number of
    entries of the source matching [*.json]; with skip-existing it is the
    number of those whose name had no entry in the destination before the
    call. *)
Theorem copy_json_files_count (src dst : path) (skip : bool) (w w' : world) (count : nat) :
  ¬ src `prefix_of` dst →
  _copy_json_files src dst skip w = (Return count, w') →
  (skip = false → count = length (glob_json_in (files w) src)) ∧
  (skip = true →
   count = length (filter (λ n, files w !! child dst n = None)
                     (glob_json_in (files w) src))).
Proof.
  intros Hsrc Hrun. rewrite copy_json_files_unfold in Hrun.
  destruct (makedirs dst w) as [[[]|e|c] w1] eqn:Hmk; try done.
  destruct (makedirs_glob_json dst src w w1 Hsrc Hmk) as [Hperm Hdst].
  apply copy_loop_count in Hrun; [|apply NoDup_glob_json_in]. simpl in Hrun.
  split; intros ->.
  - rewrite Hrun, <-Hperm. f_equal. apply filter_all. intros n. by left.
  - rewrite Hrun, <-Hperm. f_equal. apply filter_ext_elem.
    intros n _. rewrite Hdst. split; [by intros [?|?]|by right].
Qed.

Lemma copy_json_files_count_witness :
  let w := World fs_copy [] in
  (false = false → 2 = length (glob_json_in (files w) ["s"])) ∧
  (false = true →
   2 = length (filter (λ n, files w !! child ["d"] n = None)
                 (glob_json_in (files w) ["s"]))).
Proof.
  apply (copy_json_files_count ["s"] ["d"] false (World fs_copy [])
           (_copy_json_files ["s"] ["d"] false (World fs_copy [])).2 2).
  - intros Hp. apply prefix_cons_inv_1 in Hp. discriminate.
  - reflexivity.
Defined.

(** ** What the copy primitive leaves alone *)


(** Whatever its arguments and its outcome, [_copy_json_files] prints
    nothing, removes no entry, replaces no directory, and changes nothing
    outside the destination: a path whose entry differs afterwards is the
    destination, above it (a created parent) or inside it. *)
Theorem copy_json_files_never_removes (src dst : path) (skip : bool) (w : world) :
  let w' := (_copy_json_files src dst skip w).2 in
  log w' = log w ∧
  (∀ p, is_Some (files w !! p) → is_Some (files w' !! p)) ∧
  (∀ p, files w !! p = Some Dir → files w' !! p = Some Dir) ∧
  (∀ p, files w' !! p ≠ files w !! p → p `prefix_of` dst ∨ dst `prefix_of` p).
Proof.
  intros w'. destruct (_copy_json_files src dst skip w) as [o w1] eqn:Hrun.
  subst w'. cbn [snd]. apply copy_json_files_writes in Hrun as [Hlog Hw].
  split; [done|]. split; [|split].
  - intros p Hp. destruct (Hw p) as [->|(_ & _ & ?)]; done.
  - intros p. exact (writes_within_dir _ _ _ p Hw).
  - intros p Hne. destruct (Hw p) as [?|([?|(m & _ & [-> | ->])] & _)]; [done|by left|..].
    + right. apply prefix_child_l.
    + right. etrans; apply prefix_child_l.
Qed.

(** ** prepare-history with a snapshot *)

Local Abbreviation prepare_body previous_dir output_dir :=
  (λ (_ : unit) (benchmark_type : string),
     let history_src := child (child previous_dir benchmark_type) "history" in
     do hd <- path_is_dir history_src;
     if negb hd then ret tt
     else
       do count <- _copy_json_files history_src (child output_dir benchmark_type) false;
       print ("Prepared " +:+ pretty count +:+ " " +:+ benchmark_type
                +:+ " history files")).

Lemma prepare_history_unfold args w :
  prepare_history args w =
  if is_dir (files w) (Path (Prepare.previous_pages_dir args))
  then for_fold (prepare_body (Path (Prepare.previous_pages_dir args))
                   (Path (Prepare.output_dir args))) tt _BENCHMARK_TYPES w
  else (Return tt,
        World (files w)
          (log w ++ [Stdout (no_previous_message (Path (Prepare.previous_pages_dir args)))])).
Proof.
  unfold prepare_history, bind at 1, path_is_dir at 1.
  by destruct (is_dir (files w) (Path (Prepare.previous_pages_dir args))).
Qed.

(** The work on one benchmark type either does nothing (no history in the
    snapshot) or is one call of the copy primitive followed by one line. *)
Lemma prepare_body_inv prev out t w o w' :
  prepare_body prev out tt t w = (o, w') →
  (is_dir (files w) (child (child prev t) "history") = false ∧
   o = Return tt ∧ w' = w) ∨
  (is_dir (files w) (child (child prev t) "history") = true ∧
   ∃ oc wc,
     _copy_json_files (child (child prev t) "history") (child out t) false w
       = (oc, wc) ∧
     files w' = files wc ∧
     match oc with
     | Return count =>
         o = Return tt ∧
         log w' = log wc ++ [Stdout ("Prepared " +:+ pretty count +:+ " " +:+ t
                                       +:+ " history files")]
     | Raise e => o = Raise e ∧ w' = wc
     | SysExit c => o = SysExit c ∧ w' = wc
     end).
Proof.
  cbn beta zeta. unfold bind at 1, path_is_dir at 1.
  destruct (is_dir (files w) (child (child prev t) "history")) eqn:Hd; cbn [negb].
  2:{ unfold ret. intros [= <- <-]. by left. }
  unfold bind, print.
  destruct (_copy_json_files _ _ false w) as [[count|e|c] wc] eqn:Hc;
    intros [= <- <-]; right; (split; [done|]); eexists _, wc; (split; [done|]); done.
Qed.

Lemma prepare_body_footprint prev out t w o w' :
  prepare_body prev out tt t w = (o, w') →
  ∀ p, files w' !! p = files w !! p ∨
       (files w !! p = None ∧ files w' !! p = Some Dir ∧
        ∃ j, 0 < j ≤ length (child out t) ∧ p = take j (child out t)) ∨
       (∃ m c, Py.endswith ".json" m = true ∧
               (p = child (child out t) m ∨ p = child (child (child out t) m) m) ∧
               files w' !! p = Some (File c) ∧ files w !! p ≠ Some Dir).
Proof.
  intros Hbody p.
  apply prepare_body_inv in Hbody as [(_ & _ & ->)|(_ & oc & wc & Hc & Hf & _)]; [by left|].
  rewrite Hf. by apply copy_json_files_footprint in Hc as (_ & _ & Hfoot).
Qed.

Lemma prepare_loop_writes prev out types acc w o w' :
  for_fold (prepare_body prev out) acc types w = (o, w') →
  writes_within
    (λ p, ∃ t, t ∈ types ∧
          (p `prefix_of` child out t ∨
           ∃ m, Py.endswith ".json" m = true ∧
                (p = child (child out t) m ∨ p = child (child (child out t) m) m)))
    (files w) (files w').
Proof.
  apply (for_fold_rel (λ w w', writes_within _ (files w) (files w'))).
  - intros w0. apply writes_within_refl.
  - intros w1 w2 w3. apply writes_within_trans.
  - intros [] t w0 o0 w0' Ht Hbody p.
    destruct (prepare_body_footprint _ _ _ _ _ _ Hbody p)
      as [?|[(Hn & Hd & j & _ & ->)|(m & c & Hm & Hp & Hc & Hnd)]].
    + by left.
    + right. split; [exists t; split; [done|left; apply prefix_take]|].
      split; [congruence|]. rewrite Hd. eauto.
    + right. split; [exists t; split; [done|right; eauto]|].
      split; [done|]. rewrite Hc. eauto.
Qed.

Lemma copy_json_files_copies src dst w count w' n c :
  _copy_json_files src dst false w = (Return count, w') →
  is_dir (files w) src = true →
  Py.endswith ".json" n = true →
  files w !! child src n = Some (File c) →
  files w !! child dst n ≠ Some Dir →
  files w' !! child dst n = Some (File c).
Proof.
  intros Hrun Hd Hj Hsrc Hdst. rewrite copy_json_files_unfold in Hrun.
  destruct (makedirs dst w) as [[[]|e|x] w1] eqn:Hmk; try done.
  apply makedirs_inv in Hmk as [_ [(? & ? & _)|[_ Hmk]]]; [done|].
  apply makedirs_from_inr in Hmk as (Hsub & Hframe & _).
  eapply copy_loop_copies; [apply NoDup_glob_json_in|exact Hrun| | |].
  - apply elem_of_glob_json_in. split; [by eapply is_dir_weaken|].
    split; [done|]. exists (File c). by apply (lookup_weaken (files w)).
  - by apply (lookup_weaken (files w)).
  - destruct (Hframe (child dst n)) as [->|(_ & _ & j & _ & Heq)]; [done|].
    simpl in Heq. by apply child_ne_take in Heq.
Qed.

Lemma prepare_loop_copies prev out types :
  NoDup types → "history" ∉ types →
  ∀ w w', for_fold (prepare_body prev out) tt types w = (Return tt, w') →
  ∀ t n c, t ∈ types →
    is_dir (files w) (child (child prev t) "history") = true →
    Py.endswith ".json" n = true →
    files w !! child (child (child prev t) "history") n = Some (File c) →
    files w !! child (child out t) n ≠ Some Dir →
    files w' !! child (child out t) n = Some (File c).
Proof.
  induction 1 as [|h rest Hh Hnd IH]; intros Hhist w w' Hrun t n c Ht Hd Hj Hsrc Hdst.
  { by apply elem_of_nil in Ht. }
  cbn [for_fold] in Hrun. apply bind_inv_Return in Hrun as ([] & w1 & Hbody & Hrest).
  apply not_elem_of_cons in Hhist as [Hhh Hhist].
  apply elem_of_cons in Ht as [->|Ht].
  - pose proof (prepare_loop_writes _ _ _ _ _ _ _ Hrest) as Hw.
    apply prepare_body_inv in Hbody as [(Hd' & _)|(_ & oc & wc & Hc & Hf & Ho)];
      [congruence|].
    destruct oc as [count|e|x]; [|by destruct Ho..].
    rewrite (writes_within_outside _ _ _ _ Hw).
    + rewrite Hf. by eapply copy_json_files_copies.
    + intros (t' & Ht' & [Hp|(m & _ & [Heq|Heq])]).
      * apply prefix_length in Hp. rewrite !child_length in Hp. lia.
      * apply child_inj in Heq as [Heq _]. apply child_inj in Heq as [_ ->]. done.
      * apply (f_equal length) in Heq. rewrite !child_length in Heq. lia.
  - pose proof (prepare_body_footprint _ _ _ _ _ _ Hbody) as Hfoot.
    apply (IH Hhist w1 w' Hrest t n c Ht); [|done| |].
    + apply is_dir_child in Hd. apply is_dir_child.
      destruct (Hfoot (child (child prev t) "history"))
        as [->|[(_ & ? & _)|(? & ? & _ & _ & _ & ?)]]; done.
    + destruct (Hfoot (child (child (child prev t) "history") n))
        as [->|[(? & _)|(m & ? & Hm & [Heq|Heq] & _)]]; [done|congruence|..].
      * apply child_inj in Heq as [Heq _]. apply child_inj in Heq as [_ <-]. done.
      * apply child_inj in Heq as [Heq _]. apply child_inj in Heq as [_ <-]. done.
    + destruct (Hfoot (child (child out t) n))
        as [->|[(_ & _ & j & _ & Heq)|(? & ? & _ & _ & -> & _)]]; [done| |done].
      apply (f_equal length) in Heq. rewrite length_take, !child_length in Heq. lia.
Qed.

(** prepare-history with a snapshot: when the command has returned, every
    regular file matching [*.json] of [<previous>/<type>/history], for each of
    the two benchmark types, is at [<output>/<type>/] under its name with the
    same content, over a file that was there (the copy does not skip existing
    files); a directory of that name is not replaced. *)
Theorem prepare_history_copies
    (args : Prepare.Namespace) (w w' : world) (t n c : string) :
  let prev := Path (Prepare.previous_pages_dir args) in
  let out := Path (Prepare.output_dir args) in
  prepare_history args w = (Return tt, w') →
  is_dir (files w) prev = true →
  t ∈ _BENCHMARK_TYPES →
  is_dir (files w) (child (child prev t) "history") = true →
  Py.endswith ".json" n = true →
  files w !! child (child (child prev t) "history") n = Some (File c) →
  files w !! child (child out t) n ≠ Some Dir →
  files w' !! child (child out t) n = Some (File c).
Proof.
  intros prev out Hrun Hprev Ht Hd Hj Hsrc Hdst.
  rewrite prepare_history_unfold in Hrun. fold prev out in Hrun. rewrite Hprev in Hrun.
  eapply (prepare_loop_copies prev out _BENCHMARK_TYPES); try done.
  - unfold _BENCHMARK_TYPES. apply NoDup_cons. split; [|apply NoDup_singleton].
    by intros ?%list_elem_of_singleton.
  - unfold _BENCHMARK_TYPES. intros Hin.
    apply elem_of_cons in Hin as [?|?%list_elem_of_singleton]; done.
Qed.

Lemma prepare_history_copies_witness :
  let w := World fs_snapshot [] in
  files (prepare_history prepare_args_ci w).2
    !! ["benchmark-history"; "integration"; "2024-01-02.json"] = Some (File "old-2").
Proof.
  apply (prepare_history_copies prepare_args_ci (World fs_snapshot [])
           (prepare_history prepare_args_ci (World fs_snapshot [])).2
           "integration" "2024-01-02.json" "old-2").
  - vm_compute. reflexivity.
  - reflexivity.
  - right. left.
  - reflexivity.
  - reflexivity.
  - reflexivity.
  - discriminate.
Defined.

(** prepare-history changes nothing but the output directory: whatever the
    outcome, a path whose entry differs afterwards is the output directory,
    above it or inside it, and no entry is removed; so with the snapshot and
    the output directory apart, the snapshot is left as it was. *)
Theorem prepare_history_keeps_snapshot (args : Prepare.Namespace) (w : world) :
  let prev := Path (Prepare.previous_pages_dir args) in
  let out := Path (Prepare.output_dir args) in
  let w' := (prepare_history args w).2 in
  (∀ p, files w' !! p ≠ files w !! p → p `prefix_of` out ∨ out `prefix_of` p) ∧
  (∀ p, is_Some (files w !! p) → is_Some (files w' !! p)) ∧
  (apart prev out → ∀ p, prev `prefix_of` p → files w' !! p = files w !! p).
Proof.
  intros prev out w'.
  assert (writes_within (around out) (files w) (files w')) as Hw.
  { subst w'. rewrite prepare_history_unfold. fold prev out.
    destruct (is_dir (files w) prev); [|apply writes_within_refl].
    destruct (for_fold _ tt _BENCHMARK_TYPES w) as [o w1] eqn:Hrun. cbn [snd].
    apply prepare_loop_writes in Hrun.
    eapply writes_within_weaken; [|exact Hrun].
    intros p (t & _ & [Hp|(m & _ & [-> | ->])]).
    - apply prefix_of_child in Hp as [->|Hp]; [right; apply prefix_child_l|by left].
    - right. etrans; apply prefix_child_l.
    - right. etrans; [|apply prefix_child_l]. etrans; apply prefix_child_l. }
  split; [|split].
  - intros p Hne. destruct (Hw p) as [?|([?|?] & _)]; [done|by left|by right].
  - intros p Hp. destruct (Hw p) as [->|(_ & _ & ?)]; done.
  - intros [Hpo Hop] p Hp. apply (writes_within_outside _ _ _ _ Hw).
    intros [Hin|Hin].
    + apply Hpo. by etrans.
    + destruct (prefix_weak_total _ _ _ Hp Hin); done.
Qed.

Lemma prepare_history_keeps_snapshot_witness :
  let w := World fs_snapshot [] in
  let p := ["previous-pages"; "OAuth-Sheriff"; "benchmarks"; "micro"; "history";
            "2024-01-01.json"] in
  files (prepare_history prepare_args_ci w).2 !! p = files w !! p.
Proof.
  intros w p.
  apply (proj2 (proj2 (prepare_history_keeps_snapshot prepare_args_ci w))).
  - split; vm_compute; intros [k Hk]; discriminate Hk.
  - exists ["micro"; "history"; "2024-01-01.json"]. vm_compute. reflexivity.
Defined.

(** ** The steps of assemble and what they change *)

Lemma changes_within_refl Q s : changes_within Q s s.
Proof. intros p. by left. Qed.

Lemma changes_within_trans Q s1 s2 s3 :
  changes_within Q s1 s2 → changes_within Q s2 s3 → changes_within Q s1 s3.
Proof.
  intros H12 H23 p. destruct (H23 p) as [->|?]; [apply H12|by right].
Qed.

Lemma changes_within_weaken (P Q : path → Prop) s s' :
  (∀ p, P p → Q p) → changes_within P s s' → changes_within Q s s'.
Proof. intros HPQ H p. destruct (H p) as [?|?]; [by left|right; auto]. Qed.

Lemma writes_within_changes P s s' : writes_within P s s' → changes_within P s s'.
Proof. intros H p. destruct (H p) as [?|(? & _)]; [by left|by right]. Qed.

Lemma deletes_within_changes Q s s' : deletes_within Q s s' → changes_within Q s s'.
Proof. intros H p. destruct (H p) as [?|(? & _)]; [by left|by right]. Qed.

Lemma deletes_within_refl Q s : deletes_within Q s s.
Proof. intros p. by left. Qed.

Lemma deletes_within_trans Q s1 s2 s3 :
  deletes_within Q s1 s2 → deletes_within Q s2 s3 → deletes_within Q s1 s3.
Proof.
  intros H12 H23 p. destruct (H23 p) as [->|(HQ & Hn & c & Hc)]; [apply H12|].
  right. split; [done|]. split; [done|]. exists c.
  destruct (H12 p) as [<-|(_ & ? & _)]; [done|congruence].
Qed.

Lemma deletes_within_weaken (P Q : path → Prop) s s' :
  (∀ p, P p → Q p) → deletes_within P s s' → deletes_within Q s s'.
Proof. intros HPQ H p. destruct (H p) as [?|(? & ?)]; [by left|right; auto]. Qed.

Lemma deletes_within_dir Q s s' p :
  deletes_within Q s s' → s !! p = Some Dir → s' !! p = Some Dir.
Proof. intros H Hp. destruct (H p) as [->|(_ & _ & c & ?)]; [done|congruence]. Qed.

Lemma deletes_within_is_dir Q s s' p :
  deletes_within Q s s' → is_dir s' p = is_dir s p.
Proof.
  intros H. unfold is_dir, stat. destruct p as [|x p]; [done|].
  destruct (H (x :: p)) as [->|(_ & -> & c & ->)]; [done|].
  by rewrite !bool_decide_eq_false_2.
Qed.

Lemma unlink_loop_deletes d names acc w o w' :
  for_fold (λ removed name, unlink (child d name) ;; ret (S removed)) acc names w
    = (o, w') →
  log w' = log w ∧
  deletes_within (λ p, ∃ m, m ∈ names ∧ p = child d m) (files w) (files w').
Proof.
  apply (for_fold_rel (λ w w',
    log w' = log w ∧
    deletes_within (λ p, ∃ m, m ∈ names ∧ p = child d m) (files w) (files w'))).
  - intros w0. split; [done|apply deletes_within_refl].
  - intros w1 w2 w3 [Hl12 H12] [Hl23 H23]. split; [congruence|].
    by eapply deletes_within_trans.
  - intros acc0 n w0 o0 w0' Hn. cbv beta. unfold bind, ret.
    destruct (unlink (child d n) w0) as [[[]|e|c] w1] eqn:Hu; intros [= <- <-];
      apply unlink_inv in Hu as [Hlog [[_ ->]|(Ho & [c' Hc] & Hw)]]; try done;
      (split; [done|]); try apply deletes_within_refl.
    intros p. rewrite Hw. destruct (decide (p = child d n)) as [->|?].
    + right. rewrite lookup_delete_eq. rewrite stat_child in Hc.
      split; [by exists n|]. split; [done|]. by exists c'.
    + left. by rewrite lookup_delete_ne.
Qed.

Lemma enforce_retention_deletes d N w o w' :
  _enforce_retention d N w = (o, w') →
  log w' = log w ∧
  deletes_within (λ p, ∃ n, Py.endswith ".json" n = true ∧ p = child d n)
    (files w) (files w').
Proof.
  rewrite enforce_retention_unfold.
  destruct (is_dir (files w) d).
  2:{ intros [= <- <-]. split; [done|apply deletes_within_refl]. }
  intros Hloop. apply unlink_loop_deletes in Hloop as [Hlog Hdel]. split; [done|].
  eapply deletes_within_weaken; [|exact Hdel].
  intros p (m & Hm & ->). exists m. split; [|done].
  assert (m ∈ Py.sorted_reverse (glob_json_in (files w) d)) as Hin.
  { destruct (slice_from_drop N (Py.sorted_reverse (glob_json_in (files w) d)))
      as (i & _ & Hs & _). rewrite Hs in Hm.
    eapply elem_of_take_or_drop. right. exact Hm. }
  rewrite sorted_reverse_Permutation in Hin.
  by apply elem_of_glob_json_in in Hin as (_ & ? & _).
Qed.
